(** * WikiGPT: the question-answering pipeline of [registerRoutes]

    A shallow embedding of the handler of [POST /api/wikipedia/process]
    and of the helpers it calls ([generateWikipediaResponse],
    [extractRelevantContent], [generateConversationalResponse],
    [detectQuestionType], [makeContentConversational],
    [generateNoResultResponse], [attemptSpellCorrection],
    [correctCommonMisspellings]).

    Conventions of the embedding.
    - A JavaScript string is a [string]: a sequence of 8-bit characters.
      The model agrees with JavaScript on ASCII text; non-ASCII literals of
      the source are kept as the bytes the source file holds.  [\s],
      [trim] and [toLowerCase] are modelled on their ASCII part.
    - The network, [Math.random] and [Date.now] are read from an explicit
      [World]; the handler is a computation in a state-and-exception monad
      that logs every outgoing request.
    - Payloads of the external service are typed after the MediaWiki
      replies the code reads, with every field the code guards by [?.],
      [||] or [!] optional. *)

From Stdlib Require Import Bool Arith Lia List ZArith NArith.
From Stdlib Require Import Ascii String DecimalString.
Import ListNotations.

Local Open Scope string_scope.
Local Open Scope list_scope.
Local Open Scope nat_scope.

(** String concatenation, the [+] of JavaScript on strings. *)
Infix "+++" := String.append (right associativity, at level 60).

(** ** JavaScript string primitives *)

Module JS.

(** ASCII part of the [\s] class and of the characters [trim] strips. *)
Definition isSpace (c : ascii) : bool :=
  let n := nat_of_ascii c in
  ((9 <=? n) && (n <=? 13)) || (n =? 32).

(** [\w]: letters, digits and underscore. *)
Definition isWordChar (c : ascii) : bool :=
  let n := nat_of_ascii c in
  ((48 <=? n) && (n <=? 57)) || ((65 <=? n) && (n <=? 90))
  || ((97 <=? n) && (n <=? 122)) || (n =? 95).

Definition lowerChar (c : ascii) : ascii :=
  let n := nat_of_ascii c in
  if (65 <=? n) && (n <=? 90) then ascii_of_nat (n + 32) else c.

(** [s.toLowerCase()] *)
Fixpoint toLowerCase (s : string) : string :=
  match s with
  | EmptyString => EmptyString
  | String c s' => String (lowerChar c) (toLowerCase s')
  end.

(** [s.startsWith(p)] *)
Fixpoint startsWith (s p : string) {struct p} : bool :=
  match p, s with
  | EmptyString, _ => true
  | String _ _, EmptyString => false
  | String a p', String b s' => Ascii.eqb a b && startsWith s' p'
  end.

(** [s.includes(sub)] *)
Fixpoint includes (s sub : string) : bool :=
  startsWith s sub ||
  match s with
  | EmptyString => false
  | String _ s' => includes s' sub
  end.

Fixpoint dropWhile (f : ascii -> bool) (s : string) : string :=
  match s with
  | EmptyString => EmptyString
  | String c s' => if f c then dropWhile f s' else s
  end.

Fixpoint rev (s : string) : string :=
  match s with
  | EmptyString => EmptyString
  | String c s' => rev s' +++ String c EmptyString
  end.

(** [s.trim()] *)
Definition trim (s : string) : string :=
  rev (dropWhile isSpace (rev (dropWhile isSpace s))).

(** [s.split(re)] for a regular expression [re] that matches the non-empty
    runs of the characters satisfying [sep] ([/\s+/], [/[.!?]+/]): [cur] is
    the piece being read, [inSep] tells that the previous character
    belonged to a separator run. *)
Fixpoint splitRunsFrom (sep : ascii -> bool) (cur : string) (inSep : bool)
  (s : string) : list string :=
  match s with
  | EmptyString => [cur]
  | String c s' =>
      if sep c then
        if inSep then splitRunsFrom sep EmptyString true s'
        else cur :: splitRunsFrom sep EmptyString true s'
      else splitRunsFrom sep (cur +++ String c EmptyString) false s'
  end.

Definition splitRuns (sep : ascii -> bool) (s : string) : list string :=
  splitRunsFrom sep EmptyString false s.

(** [s.split(c)] for a one-character separator. *)
Fixpoint splitCharFrom (d : ascii) (cur : string) (s : string) : list string :=
  match s with
  | EmptyString => [cur]
  | String c s' =>
      if Ascii.eqb c d then cur :: splitCharFrom d EmptyString s'
      else splitCharFrom d (cur +++ String c EmptyString) s'
  end.

Definition splitChar (d : ascii) (s : string) : list string :=
  splitCharFrom d EmptyString s.

(** [l.join(sep)] *)
Definition join (sep : string) (l : list string) : string :=
  String.concat sep l.

(** [l.slice(0, n)] and [l.slice(a, b)] for [0 <= a <= b]. *)
Definition slice {A} (a b : nat) (l : list A) : list A :=
  firstn (b - a) (skipn a l).

(** [s.replace(/c/g, d)] for single characters. *)
Fixpoint replaceChar (c d : ascii) (s : string) : string :=
  match s with
  | EmptyString => EmptyString
  | String x s' => String (if Ascii.eqb x c then d else x) (replaceChar c d s')
  end.

(** Characters [encodeURIComponent] leaves alone: letters, digits and
    [- _ . ! ~ * ' ( )]. *)
Definition isUnreserved (c : ascii) : bool :=
  let n := nat_of_ascii c in
  ((48 <=? n) && (n <=? 57)) || ((65 <=? n) && (n <=? 90))
  || ((97 <=? n) && (n <=? 122))
  || existsb (Nat.eqb n) [45; 95; 46; 33; 126; 42; 39; 40; 41].

Definition hexDigit (n : nat) : ascii :=
  if n <? 10 then ascii_of_nat (48 + n) else ascii_of_nat (55 + n).

(** [encodeURIComponent(s)] on the bytes of [s]. *)
Fixpoint encodeURIComponent (s : string) : string :=
  match s with
  | EmptyString => EmptyString
  | String c s' =>
      let n := nat_of_ascii c in
      if isUnreserved c then String c (encodeURIComponent s')
      else String "%" (String (hexDigit (n / 16))
             (String (hexDigit (n mod 16)) (encodeURIComponent s')))
  end.

(** A number rendered inside a template literal. *)
Definition showNat (n : nat) : string :=
  NilZero.string_of_uint (Nat.to_uint n).

End JS.

(** ** The external service and the runtime *)

(** A search hit, [WikipediaSearchResult] of [schema.ts]. *)
Module Hit.
Record t := mk {
  title : string;
  snippet : string;
  pageid : Z;
  size : Z;
  wordcount : Z;
  timestamp : string
}.
End Hit.

(** An entry of [query.pages] in a content reply.  An entry for a title
    without page (listed under the key [-1]) has no [extract]. *)
Module Page.
Record t := mk {
  title : string;
  extract : option string;
  fullurl : option string
}.
End Page.

(** What [response.json()] resolves to. *)
Inductive Json :=
| JNull                                          (* the JSON text [null] *)
| JSearch (search : option (list Hit.t))         (* [{query: {search: [...]}}]; [None]: [query] or [search] absent *)
| JOpenSearch (titles : list string)             (* [[query, [title, ...], ...]] *)
| JPages (pages : option (list (string * Page.t))) (* [{query: {pages: {id: page, ...}}}], entries in key order *)
| JOther.                                        (* an object with none of these fields, such as [{error: ...}] *)

Inductive Parsed :=
| Unparsable (message : string)   (* [json()] rejects with a SyntaxError *)
| Parses (data : Json).

Record FetchResponse := mkResponse {
  status : nat;
  body : Parsed
}.

(** [response.ok] *)
Definition ok (r : FetchResponse) : bool :=
  (200 <=? status r) && (status r <=? 299).

Inductive FetchOutcome :=
| Rejects (message : string)      (* [fetch] rejects: no reply at all *)
| Resolves (r : FetchResponse).

(** The world a request runs in.  [net] answers a request by its URL (the
    requests of one run have pairwise different URLs), [random i] is the
    numerator over [2^53] of the [i]-th [Math.random()], [now i] the
    value of the [i]-th [Date.now()]. *)
Record World := mkWorld {
  net : string -> FetchOutcome;
  random : nat -> N;
  now : nat -> Z
}.

Inductive JsError :=
| ZodError (message : string)
| TypeError (message : string)
| SyntaxError (message : string)
| PlainError (message : string).   (* [new Error(message)] *)

(** [error.message] *)
Definition message (e : JsError) : string :=
  match e with
  | ZodError m | TypeError m | SyntaxError m | PlainError m => m
  end.

(** What a run has consumed so far: the URLs requested, oldest first, and
    the numbers of [Math.random()] and [Date.now()] calls. *)
Record St := mkSt {
  requests : list string;
  draws : nat;
  ticks : nat
}.

Definition start : St := mkSt [] 0 0.

Inductive Outcome (A : Type) :=
| Returns (a : A)
| Throws (e : JsError).
Arguments Returns {A} a.
Arguments Throws {A} e.

(** Computations of the handler. *)
Definition M (A : Type) : Type := World -> St -> Outcome A * St.

Definition ret {A} (a : A) : M A := fun _ s => (Returns a, s).

Definition bind {A B} (m : M A) (k : A -> M B) : M B :=
  fun w s =>
    match m w s with
    | (Returns a, s') => k a w s'
    | (Throws e, s') => (Throws e, s')
    end.

Definition throw {A} (e : JsError) : M A := fun _ s => (Throws e, s).

(** [try { m } catch (error) { h error }] *)
Definition tryCatch {A} (m : M A) (h : JsError -> M A) : M A :=
  fun w s =>
    match m w s with
    | (Returns a, s') => (Returns a, s')
    | (Throws e, s') => h e w s'
    end.

Notation "x <- m ;; k" := (bind m (fun x => k))
  (at level 61, m at next level, right associativity).
Notation "m ;;; k" := (bind m (fun _ => k))
  (at level 61, right associativity).

(** [await fetch(url)] *)
Definition fetch (url : string) : M FetchResponse :=
  fun w s =>
    let s' := mkSt (requests s ++ [url]) (draws s) (ticks s) in
    match net w url with
    | Rejects m => (Throws (TypeError m), s')
    | Resolves r => (Returns r, s')
    end.

(** [await response.json()] *)
Definition json (r : FetchResponse) : M Json :=
  match body r with
  | Unparsable m => throw (SyntaxError m)
  | Parses d => ret d
  end.

Definition two53 : N := 9007199254740992.

(** [Math.random()], as a numerator over [2^53]. *)
Definition mathRandom : M N :=
  fun w s =>
    (Returns (N.modulo (random w (draws s)) two53),
     mkSt (requests s) (S (draws s)) (ticks s)).

(** [Math.floor(Math.random() * n)], the product taken exactly. *)
Definition randomIndex (n : nat) : M nat :=
  u <- mathRandom ;; ret (N.to_nat (N.div (u * N.of_nat n) two53)).

(** [Math.random() > 0.7] and [Math.random() > 0.5]; the double [0.7] is
    [6305039478318694 / 2^53]. *)
Definition randomAbove07 : M bool :=
  u <- mathRandom ;; ret (N.ltb 6305039478318694 u).

Definition randomAbove05 : M bool :=
  u <- mathRandom ;; ret (N.ltb 4503599627370496 u).

(** [Date.now()] *)
Definition dateNow : M Z :=
  fun w s =>
    (Returns (now w (ticks s)), mkSt (requests s) (draws s) (S (ticks s))).

(** [items[Math.floor(Math.random() * items.length)]] *)
Definition pick (items : list string) : M string :=
  i <- randomIndex (List.length items) ;; ret (nth i items "").

(** [for]/[map] over a list with an effectful body, left to right. *)
Fixpoint mapM {A B} (f : A -> M B) (l : list A) : M (list B) :=
  match l with
  | [] => ret []
  | x :: l' => y <- f x ;; ys <- mapM f l' ;; ret (y :: ys)
  end.

(** ** Relevance extraction *)

Record Scored := mkScored {
  paragraph : string;
  score : nat
}.

(** [question.toLowerCase().split(/\s+/).filter(word => word.length > 3)] *)
Definition queryWordsOf (question : string) : list string :=
  filter (fun word => 3 <? String.length word)
         (JS.splitRuns JS.isSpace (JS.toLowerCase question)).

(** The body of the [forEach] over the words of the question. *)
Definition scoreStep (lowerParagraph : string) (score : nat) (word : string) : nat :=
  if JS.includes lowerParagraph word
  then score + (if 3 <? String.length word then 2 else 1)
  else score.

(** The score the [map] callback computes for one paragraph. *)
Definition scoreOf (queryWords : list string) (paragraph : string) : nat :=
  let lowerParagraph := JS.toLowerCase paragraph in
  fold_left (scoreStep lowerParagraph) queryWords 0.

(** [sort((a, b) => b.score - a.score)]: the sort of arrays is stable, so
    an entry moves only past entries of strictly greater score. *)
Fixpoint insertByScore (x : Scored) (l : list Scored) : list Scored :=
  match l with
  | [] => [x]
  | y :: l' =>
      if score x <? score y then y :: insertByScore x l' else x :: y :: l'
  end.

Definition sortByScore (l : list Scored) : list Scored :=
  fold_right insertByScore [] l.

Definition blankLine : string := String "010"%char (String "010"%char "").

Definition extractRelevantContent (paragraphs : list string) (question : string)
  : string :=
  let queryWords := queryWordsOf question in
  let scoredParagraphs :=
    map (fun paragraph => mkScored (JS.trim paragraph) (scoreOf queryWords paragraph))
        paragraphs in
  let selectedParagraphs := JS.slice 0 3 (sortByScore scoredParagraphs) in
  match selectedParagraphs with
  | [] => JS.join blankLine (JS.slice 0 2 paragraphs)
  | top :: _ =>
      if score top =? 0 then JS.join blankLine (JS.slice 0 2 paragraphs)
      else JS.join blankLine (map paragraph selectedParagraphs)
  end.

(** [extract.split('\n').filter(p => p.trim().length > 50)] *)
Definition paragraphsOf (extract : string) : list string :=
  filter (fun p => 50 <? String.length (JS.trim p))
         (JS.splitChar "010"%char extract).

(** ** Question classification *)

Inductive QuestionType := What | How | Why | When | Compare | General.

Definition detectQuestionType (question : string) : QuestionType :=
  let lowerQuestion := JS.toLowerCase question in
  if JS.startsWith lowerQuestion "what" || JS.includes lowerQuestion "what is"
     || JS.includes lowerQuestion "what are" then What
  else if JS.startsWith lowerQuestion "how" || JS.includes lowerQuestion "how does"
     || JS.includes lowerQuestion "how to" then How
  else if JS.startsWith lowerQuestion "why" || JS.includes lowerQuestion "why is"
     || JS.includes lowerQuestion "why does" then Why
  else if JS.startsWith lowerQuestion "when" || JS.includes lowerQuestion "when did"
     || JS.includes lowerQuestion "when was" then When
  else if JS.includes lowerQuestion "compare" || JS.includes lowerQuestion "difference"
     || JS.includes lowerQuestion "vs" then Compare
  else General.

(** ** The static dictionary of misspellings *)

Definition corrections : list (string * string) :=
  [ ("phisics", "physics"); ("chemestry", "chemistry"); ("biology", "biology");
    ("psycology", "psychology"); ("psichology", "psychology");
    ("philosphy", "philosophy"); ("mathamatics", "mathematics");
    ("algorythm", "algorithm"); ("artficial", "artificial");
    ("inteligence", "intelligence"); ("quantem", "quantum");
    ("quantam", "quantum");
    ("histery", "history"); ("ancent", "ancient"); ("medeval", "medieval");
    ("rennaissance", "renaissance"); ("napoleen", "napoleon");
    ("shakespeare", "shakespeare"); ("einstien", "einstein");
    ("davinci", "da vinci");
    ("geograpy", "geography"); ("contry", "country"); ("counrty", "country");
    ("mountian", "mountain"); ("oceean", "ocean"); ("desert", "desert");
    ("forrest", "forest");
    ("tecnology", "technology"); ("compuer", "computer");
    ("programing", "programming"); ("sofware", "software");
    ("hardwar", "hardware"); ("intrnet", "internet"); ("websit", "website");
    ("becuase", "because"); ("recieve", "receive"); ("seperate", "separate");
    ("definately", "definitely"); ("occured", "occurred");
    ("begining", "beginning"); ("goverment", "government");
    ("enviroment", "environment") ].

Definition isWordOpt (c : option ascii) : bool :=
  match c with
  | Some c => JS.isWordChar c
  | None => false
  end.

(** The assertion [\b] between [before] and [after]. *)
Definition boundary (before after : option ascii) : bool :=
  xorb (isWordOpt before) (isWordOpt after).

Definition charAt (i : nat) (s : string) : option ascii := String.get i s.

(** The literal [word] read at the head of [s] under the flag [i]. *)
Fixpoint startsWithCI (s word : string) {struct word} : bool :=
  match word, s with
  | EmptyString, _ => true
  | String _ _, EmptyString => false
  | String a word', String b s' =>
      Ascii.eqb (JS.lowerChar a) (JS.lowerChar b) && startsWithCI s' word'
  end.

(** [/\bword\b/i] matches at the head of [s], [prev] being the character
    before it. *)
Definition matchesWordAt (word : string) (prev : option ascii) (s : string)
  : bool :=
  let n := String.length word in
  boundary prev (charAt 0 s) && startsWithCI s word
  && boundary (charAt (n - 1) s) (charAt n s).

(** [s.replace(new RegExp(`\\b${wrong}\\b`, 'gi'), right)] for a non-empty
    literal [wrong]: the matches are taken left to right and do not
    overlap; [skip] counts the characters of the current match still to
    be passed over. *)
Fixpoint replaceWordFrom (wrong right : string) (prev : option ascii)
  (skip : nat) (s : string) : string :=
  match s with
  | EmptyString => EmptyString
  | String c s' =>
      match skip with
      | S k => replaceWordFrom wrong right (Some c) k s'
      | O =>
          if matchesWordAt wrong prev s
          then right +++ replaceWordFrom wrong right (Some c)
                           (String.length wrong - 1) s'
          else String c (replaceWordFrom wrong right (Some c) 0 s')
      end
  end.

Definition replaceWord (wrong right s : string) : string :=
  replaceWordFrom wrong right None 0 s.

Definition correctCommonMisspellings (query : string) : string :=
  fold_left
    (fun corrected entry => replaceWord (fst entry) (snd entry) corrected)
    corrections (JS.toLowerCase query).

(** ** Response synthesis *)

Definition nl : string := String "010"%char "".
Definition dquote : string := String "034"%char "".

Definition encouragingResponses : list string :=
  [ "Hmm, I couldn't find specific information about that topic on Wikipedia.";
    "That's a tricky one! I wasn't able to locate relevant Wikipedia articles for that question.";
    "Interesting question, but I'm having trouble finding Wikipedia content that matches what you're looking for.";
    "I searched through Wikipedia but couldn't find detailed information on that specific topic." ].

(** The fixed part of the template between the opening sentence and the
    echoed question. *)
Definition retryTips : string :=
  nl +++ nl +++
  "**Here are some ways we can try to get better results:**" +++ nl +++
  "â€¢ Try rephrasing with different keywords or terms" +++ nl +++
  "â€¢ Check if it might be a very recent topic (Wikipedia might not have coverage yet)" +++ nl +++
  "â€¢ Consider asking about a broader or more general version of the topic" +++ nl +++
  "â€¢ Make sure the topic has an established Wikipedia page" +++ nl +++ nl +++
  "**Your search:** ".

Definition signOff : string :=
  nl +++ nl +++ "Feel free to try asking in a different way - I'm here to help!".

Definition generateNoResultResponse (question : string) : M string :=
  response <- pick encouragingResponses ;;
  ret (response +++ retryTips +++ dquote +++ question +++ dquote +++ signOff).

Definition sentenceConnectors : list string :=
  [ "Essentially, "; "In simple terms, "; "Basically, "; "Put simply, ";
    "Here's the thing - "; "What's interesting is that " ].

Definition joinConnectors : list string :=
  [ ". "; ". Additionally, "; ". Also, "; ". What's more, "; ". Interestingly, " ].

Definition isSentenceEnd (c : ascii) : bool :=
  Ascii.eqb c "." || Ascii.eqb c "!" || Ascii.eqb c "?".

(** The body of the [map] over the sentences. *)
Definition rephrase (sentence : string) : M string :=
  let sentence := JS.trim sentence in
  connect <- randomAbove07 ;;
  sentence <- (if connect : bool
               then connector <- pick sentenceConnectors ;;
                    ret (connector +++ JS.toLowerCase sentence)
               else ret sentence) ;;
  if 100 <? String.length sentence
  then emphasise <- randomAbove05 ;;
       ret (if emphasise : bool then "**" +++ sentence +++ "**" else sentence)
  else ret sentence.

Definition makeContentConversational (content : string) (questionType : QuestionType)
  : M string :=
  let sentences :=
    filter (fun s => 10 <? String.length (JS.trim s))
           (JS.splitRuns isSentenceEnd content) in
  processedSentences <- mapM rephrase (JS.slice 0 4 sentences) ;;
  connector <- pick joinConnectors ;;
  ret (JS.join connector processedSentences).

Definition conversationalIntros : list string :=
  [ "Great question! Let me tell you about";
    "I'd be happy to explain";
    "Here's what I can share about";
    "That's an interesting topic! From what I know,";
    "Let me break this down for you -";
    "This is a fascinating subject!" ].

Definition conclusions : list string :=
  [ nl +++ nl +++ "Hope this helps clarify things!";
    nl +++ nl +++ "Pretty fascinating stuff, right?";
    nl +++ nl +++ "There's definitely more to explore on this topic!";
    nl +++ nl +++ "Let me know if you'd like to dive deeper into any aspect!";
    nl +++ nl +++ "This is just scratching the surface - there's so much more to discover!" ].

Definition generateConversationalResponse (question title content : string)
  (article : Page.t) : M string :=
  let questionType := detectQuestionType question in
  intro <- pick conversationalIntros ;;
  let response :=
    match questionType with
    | What => intro +++ " **" +++ title +++ "**." +++ nl +++ nl
    | How => intro +++ " Here's how " +++ JS.toLowerCase title +++ " works:" +++ nl +++ nl
    | Why => intro +++ " The reasoning behind " +++ JS.toLowerCase title +++ ":" +++ nl +++ nl
    | When => intro +++ " Looking at the timeline of " +++ JS.toLowerCase title +++ ":" +++ nl +++ nl
    | _ => intro +++ " **" +++ title +++ "**:" +++ nl +++ nl
    end in
  processedContent <- makeContentConversational content questionType ;;
  conclusion <- pick conclusions ;;
  ret (response +++ processedContent +++ conclusion).

Definition sourcesHeader : string := "**ðŸ“š Sources & Further Reading:**".
Definition bulletMark : string := "â€¢".
Definition relatedHeader : string := "**ðŸ”— You might also be interested in:**".

(** [article.fullurl || `https://en.wikipedia.org/wiki/${...}`] *)
Definition articleUrl (article : Page.t) : string :=
  match Page.fullurl article with
  | Some (String c u) => String c u
  | _ => "https://en.wikipedia.org/wiki/"
         +++ JS.encodeURIComponent (JS.replaceChar " " "_" (Page.title article))
  end.

(** The bullet of the sources section. *)
Definition sourceBullet (title url : string) : string :=
  bulletMark +++ " [" +++ title +++ " on Wikipedia](" +++ url +++ ")" +++ nl.

(** The line of related topics, empty unless there are several hits. *)
Definition relatedLine (searchResults : list Hit.t) : string :=
  if 1 <? List.length searchResults
  then let relatedTopics := map Hit.title (JS.slice 1 3 searchResults) in
       nl +++ relatedHeader +++ " " +++ JS.join ", " relatedTopics
  else "".

Definition generateWikipediaResponse (question : string) (article : option Page.t)
  (searchResults : list Hit.t) : M string :=
  match article with
  | None => generateNoResultResponse question
  | Some page =>
      match Page.extract page with
      | None | Some EmptyString => generateNoResultResponse question
      | Some extract =>
          let title := Page.title page in
          let url := articleUrl page in
          let paragraphs := paragraphsOf extract in
          let relevantContent := extractRelevantContent paragraphs question in
          conversationalResponse <-
            generateConversationalResponse question title relevantContent page ;;
          ret (conversationalResponse +++ nl +++ nl
               +++ sourcesHeader +++ nl
               +++ sourceBullet title url
               +++ relatedLine searchResults)
      end
  end.

(** ** Spelling fallback *)

Definition opensearchUrl (query : string) : string :=
  "https://en.wikipedia.org/w/api.php?action=opensearch&search="
  +++ JS.encodeURIComponent query +++ "&limit=1&format=json".

(** [data && data[1] && data[1][0]]: the first suggested title, when the
    reply is an array whose second entry starts with a non-empty string. *)
Definition firstSuggestion (data : Json) : option string :=
  match data with
  | JOpenSearch (String c t :: _) => Some (String c t)
  | _ => None
  end.

Definition attemptSpellCorrection (query : string) : M string :=
  tryCatch
    (response <- fetch (opensearchUrl query) ;;
     data <- json response ;;
     match firstSuggestion data with
     | Some suggested => ret suggested
     | None => ret (correctCommonMisspellings query)
     end)
    (fun error => ret query).

(** ** The handler of [POST /api/wikipedia/process] *)

(** The body of a reply, [WikipediaResponse] of the client library. *)
Record WikipediaResponse := mkWikipediaResponse {
  success : bool;
  response : option string;
  sources : option (list string);
  processingTime : option Z;
  error : option string
}.

Record HttpReply := mkReply {
  httpStatus : nat;
  payload : WikipediaResponse
}.

(** [z.string().min(1).max(1000)]; the message of a [ZodError] lists its
    issues, of which the code alone is kept here. *)
Definition validateQuestion (question : string) : M string :=
  if String.length question <? 1 then throw (ZodError "too_small")
  else if 1000 <? String.length question then throw (ZodError "too_big")
  else ret question.

Definition searchUrl (query : string) : string :=
  "https://en.wikipedia.org/w/api.php?action=query&list=search&srsearch="
  +++ JS.encodeURIComponent query
  +++ "&format=json&srlimit=3&srprop=snippet|titlesnippet|size|wordcount".

Definition contentUrl (title : string) : string :=
  "https://en.wikipedia.org/w/api.php?action=query&format=json&prop=extracts|info&exintro=false&explaintext=true&titles="
  +++ JS.encodeURIComponent title +++ "&inprop=url".

Definition nullProperty (name : string) : JsError :=
  TypeError ("Cannot read properties of null (reading '" +++ name +++ "')").

(** The value of [searchData.query?.search || []], [None] when reading
    [query] throws because the reply is [null]. *)
Definition candidatesOf (searchData : Json) : option (list Hit.t) :=
  match searchData with
  | JNull => None
  | JSearch (Some results) => Some results
  | _ => Some []
  end.

Definition searchOf (searchData : Json) : M (list Hit.t) :=
  match candidatesOf searchData with
  | Some results => ret results
  | None => throw (nullProperty "query")
  end.

(** The value of [contentData.query?.pages || {}], likewise. *)
Definition pageEntriesOf (contentData : Json) : option (list (string * Page.t)) :=
  match contentData with
  | JNull => None
  | JPages (Some pages) => Some pages
  | _ => Some []
  end.

Definition pagesOf (contentData : Json) : M (list (string * Page.t)) :=
  match pageEntriesOf contentData with
  | Some pages => ret pages
  | None => throw (nullProperty "query")
  end.

(** [pages[Object.keys(pages)[0]]] *)
Definition firstPage (pages : list (string * Page.t)) : option Page.t :=
  match pages with
  | [] => None
  | (_, page) :: _ => Some page
  end.

Definition noResultReply (text : string) (elapsed : Z) : HttpReply :=
  mkReply 200 (mkWikipediaResponse true (Some text) (Some []) (Some elapsed) None).

Definition answerReply (text : string) (titles : list string) (elapsed : Z)
  : HttpReply :=
  mkReply 200 (mkWikipediaResponse true (Some text) (Some titles) (Some elapsed) None).

Definition failureReply (e : JsError) : HttpReply :=
  mkReply 500 (mkWikipediaResponse false None None None (Some (message e))).

(** The second search, made when the first one found nothing and the
    corrected query differs from the question. *)
Definition retrySearch (question : string) (searchResults : list Hit.t)
  : M (list Hit.t) :=
  match searchResults with
  | [] =>
      correctedQuery <- attemptSpellCorrection question ;;
      if String.eqb correctedQuery question then ret searchResults
      else
        searchResponse <- fetch (searchUrl correctedQuery) ;;
        searchData <- json searchResponse ;;
        searchOf searchData
  | _ :: _ => ret searchResults
  end.

Definition processQuestion (question : string) : M HttpReply :=
  tryCatch
    (question <- validateQuestion question ;;
     startTime <- dateNow ;;
     searchResponse <- fetch (searchUrl question) ;;
     searchData <- json searchResponse ;;
     (if ok searchResponse then ret tt
      else throw (PlainError ("Wikipedia search failed: "
                              +++ JS.showNat (status searchResponse)))) ;;;
     searchResults <- searchOf searchData ;;
     searchResults <- retrySearch question searchResults ;;
     match searchResults with
     | [] =>
         text <- generateNoResultResponse question ;;
         endTime <- dateNow ;;
         ret (noResultReply text (endTime - startTime)%Z)
     | bestMatch :: _ =>
         contentResponse <- fetch (contentUrl (Hit.title bestMatch)) ;;
         contentData <- json contentResponse ;;
         (if ok contentResponse then ret tt
          else throw (PlainError ("Wikipedia content fetch failed: "
                                  +++ JS.showNat (status contentResponse)))) ;;;
         pages <- pagesOf contentData ;;
         let article := firstPage pages in
         text <- generateWikipediaResponse question article searchResults ;;
         let sources := map Hit.title searchResults in
         endTime <- dateNow ;;
         ret (answerReply text sources (endTime - startTime)%Z)
     end)
    (fun error => ret (failureReply error)).

(** One run of the handler: the reply it sends and what it consumed. *)
Definition run (w : World) (question : string) : Outcome HttpReply * St :=
  processQuestion question w start.

(** The reply of a run; the handler catches whatever is thrown, the last
    case stands for a reply that is never sent. *)
Definition replyOf (w : World) (question : string) : option HttpReply :=
  match fst (run w question) with
  | Returns r => Some r
  | Throws _ => None
  end.

Definition requestsOf (w : World) (question : string) : list string :=
  requests (snd (run w question)).

(** ** A functional reading of the handler

    The outcome of a run up to the phrasing drawn from [Math.random] and
    the elapsed time, computed from the replies of the network alone.
    The lemmas below relate it to [run]. *)

(** What [attemptSpellCorrection] resolves to. *)
Definition suggest (w : World) (query : string) : string :=
  match net w (opensearchUrl query) with
  | Rejects _ => query
  | Resolves r =>
      match body r with
      | Unparsable _ => query
      | Parses data =>
          match firstSuggestion data with
          | Some suggested => suggested
          | None => correctCommonMisspellings query
          end
      end
  end.

Definition firstSearch (w : World) (question : string) : JsError + list Hit.t :=
  match net w (searchUrl question) with
  | Rejects m => inl (TypeError m)
  | Resolves r =>
      match body r with
      | Unparsable m => inl (SyntaxError m)
      | Parses data =>
          if ok r then
            match candidatesOf data with
            | Some hits => inr hits
            | None => inl (nullProperty "query")
            end
          else inl (PlainError ("Wikipedia search failed: " +++ JS.showNat (status r)))
      end
  end.

Definition secondSearch (w : World) (query : string) : JsError + list Hit.t :=
  match net w (searchUrl query) with
  | Rejects m => inl (TypeError m)
  | Resolves r =>
      match body r with
      | Unparsable m => inl (SyntaxError m)
      | Parses data =>
          match candidatesOf data with
          | Some hits => inr hits
          | None => inl (nullProperty "query")
          end
      end
  end.

Definition effectiveHits (w : World) (question : string) : JsError + list Hit.t :=
  match firstSearch w question with
  | inl e => inl e
  | inr [] =>
      if String.eqb (suggest w question) question then inr []
      else secondSearch w (suggest w question)
  | inr hits => inr hits
  end.

Definition fetchedArticle (w : World) (title : string) : JsError + option Page.t :=
  match net w (contentUrl title) with
  | Rejects m => inl (TypeError m)
  | Resolves r =>
      match body r with
      | Unparsable m => inl (SyntaxError m)
      | Parses data =>
          if ok r then
            match pageEntriesOf data with
            | Some pages => inr (firstPage pages)
            | None => inl (nullProperty "query")
            end
          else inl (PlainError ("Wikipedia content fetch failed: "
                                +++ JS.showNat (status r)))
      end
  end.

Inductive Skeleton :=
| SkFailure (e : JsError)
| SkNoResult (titles : list string)
| SkAnswer (page : Page.t) (passage : string) (hits : list Hit.t).

Definition skeletonOfArticle (question : string) (article : option Page.t)
  (hits : list Hit.t) : Skeleton :=
  match article with
  | None => SkNoResult (map Hit.title hits)
  | Some page =>
      match Page.extract page with
      | None | Some EmptyString => SkNoResult (map Hit.title hits)
      | Some extract =>
          SkAnswer page (extractRelevantContent (paragraphsOf extract) question) hits
      end
  end.

Definition skeleton (w : World) (question : string) : Skeleton :=
  if String.length question <? 1 then SkFailure (ZodError "too_small")
  else if 1000 <? String.length question then SkFailure (ZodError "too_big")
  else
    match effectiveHits w question with
    | inl e => SkFailure e
    | inr [] => SkNoResult []
    | inr (bestMatch :: rest) =>
        match fetchedArticle w (Hit.title bestMatch) with
        | inl e => SkFailure e
        | inr article => skeletonOfArticle question article (bestMatch :: rest)
        end
    end.

(** The sources section appended to a synthesized answer. *)
Definition sourcesSection (page : Page.t) (hits : list Hit.t) : string :=
  nl +++ nl +++ sourcesHeader +++ nl
  +++ sourceBullet (Page.title page) (articleUrl page)
  +++ relatedLine hits.

(** The run of [question] in [w] has the outcome [k]: the reply is the
    failure [k] names, or the no-result text, or the synthesis of the
    passage [k] names followed by the sources section. *)
Definition realises (w : World) (question : string) (k : Skeleton) : Prop :=
  match k with
  | SkFailure e => replyOf w question = Some (failureReply e)
  | SkNoResult titles =>
      exists s text s' elapsed,
        generateNoResultResponse question w s = (Returns text, s')
        /\ replyOf w question = Some (answerReply text titles elapsed)
  | SkAnswer page passage hits =>
      exists extract s conversation s' elapsed,
        Page.extract page = Some extract
        /\ passage = extractRelevantContent (paragraphsOf extract) question
        /\ generateConversationalResponse question (Page.title page) passage page w s
           = (Returns conversation, s')
        /\ replyOf w question
           = Some (answerReply (conversation +++ sourcesSection page hits)
                               (map Hit.title hits) elapsed)
  end.

(** The fields of a reply an outcome fixes. *)
Definition sourcesOfSkeleton (k : Skeleton) : option (list string) :=
  match k with
  | SkFailure _ => None
  | SkNoResult titles => Some titles
  | SkAnswer _ _ hits => Some (map Hit.title hits)
  end.

Definition successOfSkeleton (k : Skeleton) : bool :=
  match k with
  | SkFailure _ => false
  | _ => true
  end.

(** ** Properties of worlds used in the statements *)

(** [word] is longer than three characters and occurs in the lower-cased
    paragraph. *)
Definition found (lowerParagraph word : string) : bool :=
  (3 <? String.length word) && JS.includes lowerParagraph word.

(** A question the validation lets through. *)
Definition valid (question : string) : Prop :=
  1 <= String.length question <= 1000.

(** The first search for [query] is answered with a success status and a
    reply that lists [hits]. *)
Definition searchReturns (w : World) (query : string) (hits : list Hit.t) : Prop :=
  exists r data,
    net w (searchUrl query) = Resolves r /\ ok r = true
    /\ body r = Parses data /\ candidatesOf data = Some hits.

(** The second search, for the corrected [query], is answered with a reply
    that lists [hits]; its status is not looked at. *)
Definition retryReturns (w : World) (query : string) (hits : list Hit.t) : Prop :=
  exists r data,
    net w (searchUrl query) = Resolves r
    /\ body r = Parses data /\ candidatesOf data = Some hits.

(** [hits] is the list of the search call that found something: the first
    one or, when that one found nothing and the corrected query differs,
    the second. *)
Definition searchProduces (w : World) (question : string) (hits : list Hit.t)
  : Prop :=
  searchReturns w question hits
  \/ (searchReturns w question []
      /\ suggest w question <> question
      /\ retryReturns w (suggest w question) hits).


(** The content request for [title] is answered with a success status and
    the sentinel of a title without page: the first entry is filed under
    [-1] and has no extract. *)
Definition contentNotFound (w : World) (title : string) (page : Page.t) : Prop :=
  exists r others,
    net w (contentUrl title) = Resolves r /\ ok r = true
    /\ body r = Parses (JPages (Some (("-1", page) :: others)))
    /\ Page.extract page = None.

(** The suggestion request is answered by a reply that can be read and
    holds no suggestion. *)
Definition suggestsNothing (w : World) (query : string) : Prop :=
  exists r data,
    net w (opensearchUrl query) = Resolves r
    /\ body r = Parses data /\ firstSuggestion data = None.

(** The suggestion request fails: no reply, or a reply that is not JSON. *)
Definition suggestionFails (w : World) (query : string) : Prop :=
  (exists m, net w (opensearchUrl query) = Rejects m)
  \/ (exists r m, net w (opensearchUrl query) = Resolves r /\ body r = Unparsable m).

(** [/\bword\b/i] matches somewhere in [s], [prev] being the character
    before [s]. *)
Fixpoint occursAsWordFrom (word : string) (prev : option ascii) (s : string)
  : bool :=
  matchesWordAt word prev s ||
  match s with
  | EmptyString => false
  | String c s' => occursAsWordFrom word (Some c) s'
  end.

Definition occursAsWord (word s : string) : bool :=
  occursAsWordFrom word None s.

(** No key of the dictionary occurs in [query] as a whole word, letter
    case apart. *)
Definition noKnownMisspelling (query : string) : Prop :=
  forall wrong right, In (wrong, right) corrections -> occursAsWord wrong query = false.

(** The failures of the external service the handler turns into a failure
    reply, with the error each one raises. *)
Inductive UpstreamFailure (w : World) (question : string) : JsError -> Prop :=
| SearchRejects m :
    net w (searchUrl question) = Rejects m ->
    UpstreamFailure w question (TypeError m)
| SearchUnparsable r m :
    net w (searchUrl question) = Resolves r -> body r = Unparsable m ->
    UpstreamFailure w question (SyntaxError m)
| SearchStatus r data :
    net w (searchUrl question) = Resolves r -> body r = Parses data ->
    ok r = false ->
    UpstreamFailure w question
      (PlainError ("Wikipedia search failed: " +++ JS.showNat (status r)))
| RetryRejects m :
    searchReturns w question [] -> suggest w question <> question ->
    net w (searchUrl (suggest w question)) = Rejects m ->
    UpstreamFailure w question (TypeError m)
| RetryUnparsable r m :
    searchReturns w question [] -> suggest w question <> question ->
    net w (searchUrl (suggest w question)) = Resolves r -> body r = Unparsable m ->
    UpstreamFailure w question (SyntaxError m)
| ContentRejects bestMatch rest m :
    searchProduces w question (bestMatch :: rest) ->
    net w (contentUrl (Hit.title bestMatch)) = Rejects m ->
    UpstreamFailure w question (TypeError m)
| ContentUnparsable bestMatch rest r m :
    searchProduces w question (bestMatch :: rest) ->
    net w (contentUrl (Hit.title bestMatch)) = Resolves r -> body r = Unparsable m ->
    UpstreamFailure w question (SyntaxError m)
| ContentStatus bestMatch rest r data :
    searchProduces w question (bestMatch :: rest) ->
    net w (contentUrl (Hit.title bestMatch)) = Resolves r -> body r = Parses data ->
    ok r = false ->
    UpstreamFailure w question
      (PlainError ("Wikipedia content fetch failed: " +++ JS.showNat (status r))).


(** [m] returns a value, whatever the world, and sends no request. *)
Definition quiet {A} (m : M A) : Prop :=
  forall w s, exists a s', m w s = (Returns a, s') /\ requests s' = requests s.

(** ** Sample worlds *)

(** A network that answers the listed URLs and drops every other request. *)
Fixpoint serve (table : list (string * FetchOutcome)) (url : string) : FetchOutcome :=
  match table with
  | [] => Rejects "fetch failed"
  | (u, outcome) :: table' => if String.eqb u url then outcome else serve table' url
  end.

Definition replies (status : nat) (data : Json) : FetchOutcome :=
  Resolves (mkResponse status (Parses data)).

Definition hit (title : string) : Hit.t := Hit.mk title "" 0 0 0 "".

(** No network at all. *)
Definition offline : World :=
  mkWorld (serve []) (fun _ => 0%N) (fun i => Z.of_nat i).

Definition moonExtract : string :=
  "The Moon is the only natural satellite of the Earth and orbits it once a month."
  +++ nl +++ "Overview" +++ nl +++
  "Its surface is covered with craters, dark plains of old lava and bright highlands."
  +++ nl +++
  "People first landed there in 1969, and twelve astronauts have walked on it since.".

Definition moonPage : Page.t :=
  Page.mk "Moon" (Some moonExtract) (Some "https://en.wikipedia.org/wiki/Moon").

(** The search finds three articles and the content of the first one is
    served; [draw] is the value of every [Math.random()]. *)
Definition moonWorld (draw : N) : World :=
  mkWorld
    (serve [ (searchUrl "What is the Moon?",
              replies 200 (JSearch (Some [hit "Moon"; hit "Moon landing"; hit "Tide"])));
             (contentUrl "Moon", replies 200 (JPages (Some [("19331", moonPage)]))) ])
    (fun _ => draw) (fun i => (Z.of_nat i * 40)%Z).

(** The search finds the article, the content request gets no reply. *)
Definition contentDown : World :=
  mkWorld
    (serve [ (searchUrl "What is the Moon?", replies 200 (JSearch (Some [hit "Moon"]))) ])
    (fun _ => 0%N) (fun i => Z.of_nat i).

(** The search finds a title for which the content reply lists no page:
    the entry is filed under [-1] and has no extract. *)
Definition missingPage : Page.t := Page.mk "Moon" None None.

Definition contentMissing : World :=
  mkWorld
    (serve [ (searchUrl "What is the Moon?", replies 200 (JSearch (Some [hit "Moon"])));
             (contentUrl "Moon", replies 200 (JPages (Some [("-1", missingPage)]))) ])
    (fun _ => 0%N) (fun i => Z.of_nat i).

(** Nothing is found and nothing is suggested. *)
Definition nothingFound (question : string) : World :=
  mkWorld
    (serve [ (searchUrl question, replies 200 (JSearch (Some [])));
             (opensearchUrl question, replies 200 (JOpenSearch [])) ])
    (fun _ => 0%N) (fun i => Z.of_nat i).

(** The first search finds nothing, the dictionary corrects the question
    and the second search finds an article. *)
Definition misspelt : World :=
  mkWorld
    (serve [ (searchUrl "quantem phisics", replies 200 (JSearch (Some [])));
             (opensearchUrl "quantem phisics", replies 200 (JOpenSearch []));
             (searchUrl "quantum physics",
              replies 200 (JSearch (Some [hit "Quantum mechanics"; hit "Physics"])));
             (contentUrl "Quantum mechanics",
              replies 200 (JPages (Some [("25202", Page.mk "Quantum mechanics"
                 (Some "Quantum mechanics is the fundamental physical theory that describes the behavior of matter and of light.")
                 None)]))) ])
    (fun _ => 0%N) (fun i => Z.of_nat i).

From Stdlib Require Import Permutation Sorted.

(** ** The requests of a run *)

(** [m] returns a value, sends no request and does not read the clock. *)
Definition steady {A} (m : M A) : Prop :=
  forall w s,
    exists a s',
      m w s = (Returns a, s')
      /\ requests s' = requests s /\ ticks s' = ticks s.

(** The content request that follows a search. *)
Definition contentRequest (hits : JsError + list Hit.t) : list string :=
  match hits with
  | inr (bestMatch :: _) => [contentUrl (Hit.title bestMatch)]
  | _ => []
  end.

(** The URLs a run requests, in order, read off the replies. *)
Definition requestPlan (w : World) (question : string) : list string :=
  if String.length question <? 1 then []
  else if 1000 <? String.length question then []
  else
    searchUrl question ::
    match firstSearch w question with
    | inl _ => []
    | inr [] =>
        opensearchUrl question ::
        (if String.eqb (suggest w question) question then []
         else searchUrl (suggest w question)
              :: contentRequest (secondSearch w (suggest w question)))
    | inr hits => contentRequest (inr hits)
    end.

(** The number of [Date.now()] calls of a run. *)
Definition clockReadsOf (w : World) (question : string) : nat :=
  ticks (snd (run w question)).

(** The shape of a reply: a success carries text, sources and the elapsed
    time, a failure an error message and nothing else. *)
Definition wellShaped (w : World) (reply : HttpReply) : Prop :=
  (httpStatus reply = 200 /\ success (payload reply) = true
   /\ (exists text, response (payload reply) = Some text)
   /\ (exists titles, sources (payload reply) = Some titles)
   /\ processingTime (payload reply) = Some (now w 1 - now w 0)%Z
   /\ error (payload reply) = None)
  \/ (httpStatus reply = 500 /\ success (payload reply) = false
      /\ response (payload reply) = None /\ sources (payload reply) = None
      /\ processingTime (payload reply) = None
      /\ (exists m, error (payload reply) = Some m)).

(** A text without capital letter (of the ASCII range). *)
Definition lowerCased (s : string) : Prop := JS.toLowerCase s = s.

(** A sentence comes out of [rephrase] trimmed, as it was or in lower
    case, possibly behind a connector and between emphasis marks. *)
Definition kept (sentence out : string) : Prop :=
  JS.includes out (JS.trim sentence) = true
  \/ JS.includes out (JS.toLowerCase (JS.trim sentence)) = true.

(** The number of occurrences of a character. *)
Fixpoint countChar (d : ascii) (s : string) : nat :=
  match s with
  | EmptyString => 0
  | String c s' => (if Ascii.eqb c d then 1 else 0) + countChar d s'
  end.

(** The value of a hexadecimal digit of [encodeURIComponent]. *)
Definition unhex (c : ascii) : nat :=
  let n := nat_of_ascii c in if n <? 58 then n - 48 else n - 55.

(** ** Texts on which the embedding and JavaScript agree *)

(** A character of the ASCII range, and a text made of such characters:
    on these [toLowerCase], [\s], [\w] and [length] are those of
    JavaScript. *)
Definition isAsciiChar (c : ascii) : bool := nat_of_ascii c <? 128.

Fixpoint isAsciiText (s : string) : bool :=
  match s with
  | EmptyString => true
  | String c s' => isAsciiChar c && isAsciiText s'
  end.

Definition asciiText (s : string) : Prop := isAsciiText s = true.

Definition asciiOpt (c : option ascii) : bool :=
  match c with
  | Some c => isAsciiChar c
  | None => true
  end.

(** A lone surrogate shows in the bytes of a text as the byte 237 followed
    by a byte from 160 to 191.  [encodeURIComponent] throws a [URIError]
    on a text that holds one; the embedding of the function covers the
    other texts, the well-formed ones. *)
Fixpoint hasLoneSurrogate (s : string) : bool :=
  match s with
  | EmptyString => false
  | String a s' =>
      match s' with
      | String b _ =>
          ((nat_of_ascii a =? 237) && (160 <=? nat_of_ascii b)
           && (nat_of_ascii b <=? 191))
          || hasLoneSurrogate s'
      | EmptyString => false
      end
  end.

Definition wellFormed (s : string) : Prop := hasLoneSurrogate s = false.


(** The text [generateNoResultResponse] makes for [question]: one of the
    four opening sentences, the tips and the question between quotes. *)
Definition noResultText (question text : string) : Prop :=
  exists opening,
    In opening encouragingResponses
    /\ text = opening +++ retryTips +++ dquote +++ question +++ dquote +++ signOff.

(** An article the service knows, whose extract is empty. *)
Definition emptyPage : Page.t :=
  Page.mk "Moon" (Some "") (Some "https://en.wikipedia.org/wiki/Moon").

(** The texts a run passes to [encodeURIComponent] are the question, the
    corrected query and the title of the best match; [encodeURIComponent]
    is modelled on well-formed texts, where it does not throw. *)
Definition encodable (w : World) (question : string) : Prop :=
  wellFormed question
  /\ wellFormed (suggest w question)
  /\ forall bestMatch rest,
       effectiveHits w question = inr (bestMatch :: rest) ->
       wellFormed (Hit.title bestMatch).

(** ** The routes [GET /api/wikipedia/search] and [GET /api/wikipedia/article] *)

(** A parameter of the query string as the framework hands it to a route:
    absent, a text, the texts of a repeated key, or a nested object for a
    bracketed key.  No parameter is a number. *)
Inductive QueryParam :=
| Absent
| Text (value : string)
| Repeated (values : list string)
| Nested.

Module SearchRoute.

(** [req.query] as far as [searchQuerySchema] reads it. *)
Record Query := mkQuery {
  q : QueryParam;
  limit : QueryParam
}.

(** The body of the reply, [SearchResponse] of the client library. *)
Record Body := mkBody {
  success : bool;
  results : option (list Hit.t);
  query : option string;
  total : option nat;
  error : option string
}.

Record Reply := mkReply {
  httpStatus : nat;
  payload : Body
}.

(** The issue [z.string().min(1).max(500)] raises for [q], if any. *)
Definition issueOfQ (p : QueryParam) : option string :=
  match p with
  | Text value =>
      if String.length value <? 1 then Some "too_small"
      else if 500 <? String.length value then Some "too_big"
      else None
  | _ => Some "invalid_type"
  end.

(** The issue [z.number().min(1).max(10).optional().default(5)] raises for
    [limit]: the schema takes a number or nothing. *)
Definition issueOfLimit (p : QueryParam) : option string :=
  match p with
  | Absent => None
  | _ => Some "invalid_type"
  end.

Definition issues (query : Query) : list string :=
  match issueOfQ (q query) with Some i => [i] | None => [] end
  ++ match issueOfLimit (limit query) with Some i => [i] | None => [] end.

(** [searchQuerySchema.parse(req.query)]: the text of [q] and the limit,
    which is the default when the parse succeeds.  The message of the
    [ZodError] is cut down to the codes of its issues. *)
Definition parse (query : Query) : M (string * nat) :=
  match q query, issues query with
  | Text value, [] => ret (value, 5)
  | _, found => throw (ZodError (JS.join ", " found))
  end.

Definition searchUrl (query : string) (limit : nat) : string :=
  "https://en.wikipedia.org/w/api.php?action=query&list=search&srsearch="
  +++ JS.encodeURIComponent query
  +++ "&format=json&srlimit=" +++ JS.showNat limit
  +++ "&srprop=snippet|titlesnippet|size|wordcount|timestamp".

(** The callback of [results.map]. *)
Definition copyHit (result : Hit.t) : Hit.t :=
  Hit.mk (Hit.title result) (Hit.snippet result) (Hit.pageid result)
         (Hit.size result) (Hit.wordcount result) (Hit.timestamp result).

Definition handler (req : Query) : M Reply :=
  tryCatch
    (parsed <- parse req ;;
     let query := fst parsed in
     let limit := snd parsed in
     response <- fetch (searchUrl query limit) ;;
     data <- json response ;;
     (if ok response then ret tt
      else throw (PlainError ("Wikipedia API error: "
                              +++ JS.showNat (status response)))) ;;;
     results <- searchOf data ;;
     ret (mkReply 200
            (mkBody true (Some (map copyHit results)) (Some query)
                    (Some (List.length results)) None)))
    (fun error =>
       ret (mkReply 400 (mkBody false None None None (Some (message error))))).

End SearchRoute.

Module ArticleRoute.

(** An entry of [query.pages] in the reply to the request of this route,
    which asks for the categories too. *)
Record WikiPage := mkWikiPage {
  title : string;
  extract : option string;
  fullurl : option string;
  categories : option (list string)    (* the [title] of each category *)
}.

Inductive Data :=
| DNull
| DPages (pages : option (list (string * WikiPage)))
| DOther.

(** The outcome of the one request of the route: no reply, or a status
    with a body that is JSON or not. *)
Inductive Fetched :=
| Rejected (message : string)
| Resolved (status : nat) (body : string + Data).

(** [article] in the body of a success. *)
Record Article := mkArticle {
  a_title : string;
  a_extract : option string;
  a_url : option string;
  a_categories : list string;
  a_wordCount : nat
}.

(** The body of the reply, [ArticleResponse] of the client library. *)
Record Body := mkBody {
  success : bool;
  article : option Article;
  error : option string
}.

Record Reply := mkReply {
  httpStatus : nat;
  payload : Body
}.

(** [articleQuerySchema.parse(req.query)] *)
Definition parse (title : QueryParam) : JsError + string :=
  match title with
  | Text value =>
      if String.length value <? 1 then inl (ZodError "too_small") else inr value
  | _ => inl (ZodError "invalid_type")
  end.

Definition contentUrl (title : string) : string :=
  "https://en.wikipedia.org/w/api.php?action=query&format=json&prop=extracts|info|categories&exintro=false&explaintext=true&titles="
  +++ JS.encodeURIComponent title +++ "&inprop=url&cllimit=10".

Definition failure (e : JsError) : Reply :=
  mkReply 400 (mkBody false None (Some (message e))).

Definition notFound : Reply :=
  mkReply 404 (mkBody false None (Some "Article not found")).

(** [page.extract ? page.extract.split(' ').length : 0] *)
Definition wordCountOf (extract : option string) : nat :=
  match extract with
  | Some (String c rest) => List.length (JS.splitChar " " (String c rest))
  | _ => 0
  end.

(** [page.categories?.map((cat) => cat.title) || []] *)
Definition categoriesOf (page : WikiPage) : list string :=
  match categories page with
  | Some titles => titles
  | None => []
  end.

Definition found (page : WikiPage) : Reply :=
  mkReply 200
    (mkBody true
       (Some (mkArticle (title page) (extract page) (fullurl page)
                        (JS.slice 0 5 (categoriesOf page))
                        (wordCountOf (extract page))))
       None).

(** What the handler does once the reply has been read: [pages] is
    [data.query?.pages || {}], [None] when reading [query] throws. *)
Definition answer (pages : option (list (string * WikiPage))) : Reply :=
  match pages with
  | None => failure (nullProperty "query")
  | Some [] =>
      failure (TypeError "Cannot read properties of undefined (reading 'categories')")
  | Some ((pageId, page) :: _) =>
      if String.eqb pageId "-1" then notFound else found page
  end.

Definition pagesOf (data : Data) : option (list (string * WikiPage)) :=
  match data with
  | DNull => None
  | DPages (Some pages) => Some pages
  | _ => Some []
  end.

(** The handler, with the network as a function of the URL: the reply and
    the URLs requested. *)
Definition handler (net : string -> Fetched) (title : QueryParam)
  : Reply * list string :=
  match parse title with
  | inl e => (failure e, [])
  | inr title =>
      let url := contentUrl title in
      (match net url with
       | Rejected m => failure (TypeError m)
       | Resolved status body =>
           match body with
           | inl m => failure (SyntaxError m)
           | inr data =>
               if (200 <=? status) && (status <=? 299)
               then answer (pagesOf data)
               else failure (PlainError ("Wikipedia API error: "
                                         +++ JS.showNat status))
           end
       end, [url])
  end.

End ArticleRoute.

(** Sample networks for the two routes. *)
Definition moonSearchWorld : World :=
  mkWorld
    (serve [ (SearchRoute.searchUrl "moon" 5,
              replies 200 (JSearch (Some [hit "Moon"; hit "Moon landing"]))) ])
    (fun _ => 0%N) (fun i => Z.of_nat i).

Definition moonWikiPage : ArticleRoute.WikiPage :=
  ArticleRoute.mkWikiPage "Moon"
    (Some "The Moon is  Earth's only natural satellite.")
    (Some "https://en.wikipedia.org/wiki/Moon")
    (Some [ "Category:Moon"; "Category:Moons"; "Category:Planetary satellites";
            "Category:Articles containing video clips";
            "Category:Astronomical objects known since antiquity";
            "Category:Solar System" ]).

Definition moonArticleNet (url : string) : ArticleRoute.Fetched :=
  if String.eqb url (ArticleRoute.contentUrl "Moon")
  then ArticleRoute.Resolved 200
         (inr (ArticleRoute.DPages (Some [("19331", moonWikiPage)])))
  else if String.eqb url (ArticleRoute.contentUrl "Moonn")
  then ArticleRoute.Resolved 200
         (inr (ArticleRoute.DPages
                 (Some [("-1", ArticleRoute.mkWikiPage "Moonn" None None None)])))
  else ArticleRoute.Rejected "fetch failed".

(** ** The client library [WikipediaAPI] *)

Module Client.

(** What the backend gives for a request of the client: no reply, or a
    status with a body that is JSON of the expected shape or not. *)
Inductive Backend (A : Type) :=
| Unreachable (message : string)
| Answers (status : nat) (body : string + A).
Arguments Unreachable {A} message.
Arguments Answers {A} status body.

Definition failed (m : string) : WikipediaResponse :=
  mkWikipediaResponse false None None None (Some m).

(** [wikipediaAPI.processQuestion(question)], the backend being a function
    of the question posted. *)
Definition processQuestion (backend : string -> Backend WikipediaResponse)
  (question : string) : WikipediaResponse :=
  match backend question with
  | Unreachable m => failed m
  | Answers status body =>
      if (200 <=? status) && (status <=? 299)
      then match body with
           | inr payload => payload
           | inl m => failed m
           end
      else failed ("HTTP error! status: " +++ JS.showNat status)
  end.

(** The backend that runs the handler of [POST /api/wikipedia/process]. *)
Definition served (w : World) (question : string) : Backend WikipediaResponse :=
  match replyOf w question with
  | Some reply => Answers (httpStatus reply) (inr (payload reply))
  | None => Unreachable "fetch failed"
  end.

(** [WikipediaArticle] of [schema.ts], as [getArticleDirect] fills it. *)
Record WikipediaArticle := mkArticle {
  title : string;
  extract : option string;
  url : string;
  wordCount : nat
}.

Definition directSearchUrl (query : string) (limit : nat) : string :=
  "https://en.wikipedia.org/w/api.php?action=query&list=search&srsearch="
  +++ JS.encodeURIComponent query
  +++ "&format=json&origin=*&srlimit=" +++ JS.showNat limit
  +++ "&srprop=snippet|titlesnippet|size|wordcount|timestamp".

Definition directContentUrl (title : string) : string :=
  "https://en.wikipedia.org/w/api.php?action=query&format=json&prop=extracts|info&exintro=false&explaintext=true&titles="
  +++ JS.encodeURIComponent title +++ "&origin=*&inprop=url".

(** [wikipediaAPI.searchDirect(query, limit)] *)
Definition searchDirect (query : string) (limit : nat) : M (list Hit.t) :=
  tryCatch
    (response <- fetch (directSearchUrl query limit) ;;
     data <- json response ;;
     results <- searchOf data ;;
     ret (map SearchRoute.copyHit results))
    (fun error => ret []).

(** [page.fullurl || `https://en.wikipedia.org/wiki/${...}`], built from
    the title asked for. *)
Definition urlOf (page : Page.t) (title : string) : string :=
  match Page.fullurl page with
  | Some (String c u) => String c u
  | _ => "https://en.wikipedia.org/wiki/"
         +++ JS.encodeURIComponent (JS.replaceChar " " "_" title)
  end.

(** [wikipediaAPI.getArticleDirect(title)]; [None] stands for [null]. *)
Definition getArticleDirect (title : string) : M (option WikipediaArticle) :=
  tryCatch
    (response <- fetch (directContentUrl title) ;;
     data <- json response ;;
     pages <- pagesOf data ;;
     match pages with
     | [] => throw (TypeError "Cannot read properties of undefined (reading 'title')")
     | (pageId, page) :: _ =>
         if String.eqb pageId "-1" then ret None
         else ret (Some (mkArticle (Page.title page) (Page.extract page)
                                   (urlOf page title)
                                   (ArticleRoute.wordCountOf (Page.extract page))))
     end)
    (fun error => ret None).

End Client.

(** ** The fallback answer of the chat hook *)

Module Chat.

(** [detectQuestionType] of the hook: no [compare] class. *)
Definition detectQuestionType (question : string) : QuestionType :=
  let lowerQuestion := JS.toLowerCase question in
  if JS.startsWith lowerQuestion "what" || JS.includes lowerQuestion "what is"
     || JS.includes lowerQuestion "what are" then What
  else if JS.startsWith lowerQuestion "how" || JS.includes lowerQuestion "how does"
     || JS.includes lowerQuestion "how to" then How
  else if JS.startsWith lowerQuestion "why" || JS.includes lowerQuestion "why is"
     || JS.includes lowerQuestion "why does" then Why
  else if JS.startsWith lowerQuestion "when" || JS.includes lowerQuestion "when did"
     || JS.includes lowerQuestion "when was" then When
  else General.

(** [makeContentConversational] of the hook: three sentences at most. *)
Definition makeContentConversational (content : string) : M string :=
  let sentences :=
    filter (fun s => 10 <? String.length (JS.trim s))
           (JS.splitRuns isSentenceEnd content) in
  processedSentences <- mapM rephrase (JS.slice 0 3 sentences) ;;
  connector <- pick joinConnectors ;;
  ret (JS.join connector processedSentences).

Definition conclusions : list string :=
  [ nl +++ nl +++ "Hope this helps clarify things!";
    nl +++ nl +++ "Pretty fascinating stuff, right?";
    nl +++ nl +++ "There's definitely more to explore on this topic!";
    nl +++ nl +++ "Let me know if you'd like to dive deeper into any aspect!" ].

(** The sources section of the fallback answer. *)
Definition sourcesSection (article : Client.WikipediaArticle)
  (searchResults : list Hit.t) : string :=
  nl +++ nl +++ sourcesHeader +++ nl
  +++ sourceBullet (Client.title article) (Client.url article)
  +++ relatedLine searchResults.

(** [generateFallbackResponse(question, article, searchResults)] *)
Definition generateFallbackResponse (question : string)
  (article : Client.WikipediaArticle) (searchResults : list Hit.t) : M string :=
  match Client.extract article with
  | None =>
      throw (TypeError "Cannot read properties of undefined (reading 'split')")
  | Some extract =>
      let title := Client.title article in
      let paragraphs := paragraphsOf extract in
      let relevantContent := JS.join blankLine (JS.slice 0 2 paragraphs) in
      let questionType := detectQuestionType question in
      intro <- pick conversationalIntros ;;
      let response :=
        match questionType with
        | What => intro +++ " **" +++ title +++ "**." +++ nl +++ nl
        | How => intro +++ " Here's how " +++ JS.toLowerCase title +++ " works:"
                 +++ nl +++ nl
        | Why => intro +++ " The reasoning behind " +++ JS.toLowerCase title +++ ":"
                 +++ nl +++ nl
        | When => intro +++ " Looking at the timeline of " +++ JS.toLowerCase title
                  +++ ":" +++ nl +++ nl
        | _ => intro +++ " **" +++ title +++ "**:" +++ nl +++ nl
        end in
      processedContent <-
        makeContentConversational (String.substring 0 600 relevantContent) ;;
      conclusion <- pick conclusions ;;
      ret (response +++ processedContent +++ conclusion
           +++ sourcesSection article searchResults)
  end.

End Chat.

(** ** The storage of the chat *)

Module Storage.

Inductive Role := User | Assistant.

Record Metadata := mkMetadata {
  m_sources : option (list string);
  searchQuery : option string;
  m_processingTime : option Z
}.

(** [LocalChatMessage] and [LocalChatSession] of [schema.ts]. *)
Record LocalChatMessage := mkMessage {
  m_id : string;
  role : Role;
  content : string;
  metadata : option Metadata;
  timestamp : string
}.

Record LocalChatSession := mkSession {
  id : string;
  title : string;
  messages : list LocalChatMessage;
  createdAt : string;
  updatedAt : string
}.

(** [chatStorage.updateSessionTitle(session, firstMessage)] *)
Definition updateSessionTitle (session : LocalChatSession) (firstMessage : string)
  : string :=
  if List.length (messages session) <=? 1 then
    if 50 <? String.length firstMessage
    then String.substring 0 47 firstMessage +++ "..."
    else firstMessage
  else title session.

(** [localStorage]: the items by key, and whether [setItem] throws for
    lack of room. *)
Record LocalStorage := mkStorage {
  items : string -> option string;
  full : bool
}.

Definition SESSIONS_KEY : string := "wikigpt_sessions".
Definition PREFERENCES_KEY : string := "wikigpt_preferences".
Definition CURRENT_SESSION_KEY : string := "wikigpt_current_session".

Definition getItem (key : string) (st : LocalStorage) : option string :=
  items st key.

(** [localStorage.setItem(key, value)]: the storage after the call, or
    [None] when it throws. *)
Definition setItem (key value : string) (st : LocalStorage) : option LocalStorage :=
  if full st then None
  else Some (mkStorage (fun k => if String.eqb k key then Some value else items st k)
                       (full st)).

Definition removeItem (key : string) (st : LocalStorage) : LocalStorage :=
  mkStorage (fun k => if String.eqb k key then None else items st k) (full st).

(** [chatStorage.saveCurrentSessionId(sessionId)] *)
Definition saveCurrentSessionId (sessionId : option string) (st : LocalStorage)
  : LocalStorage :=
  match sessionId with
  | Some (String c rest) =>
      match setItem CURRENT_SESSION_KEY (String c rest) st with
      | Some st' => st'
      | None => st
      end
  | _ => removeItem CURRENT_SESSION_KEY st
  end.

(** [chatStorage.loadCurrentSessionId()] *)
Definition loadCurrentSessionId (st : LocalStorage) : option string :=
  getItem CURRENT_SESSION_KEY st.

(** [chatStorage.clearAllData()] *)
Definition clearAllData (st : LocalStorage) : LocalStorage :=
  removeItem CURRENT_SESSION_KEY (removeItem SESSIONS_KEY st).

End Storage.

(** A network for the direct calls of the client. *)
Definition directWorld : World :=
  mkWorld
    (serve [ (Client.directContentUrl "Moon landing",
              replies 503 (JPages (Some [("673", Page.mk "Moon landing"
                 (Some "A Moon landing is the arrival of a spacecraft on the Moon.")
                 None)])));
             (Client.directContentUrl "Moonn",
              replies 200 (JPages (Some [("-1", missingPage)]))) ])
    (fun _ => 0%N) (fun i => Z.of_nat i).

Definition moonArticle : Client.WikipediaArticle :=
  Client.mkArticle "Moon" (Some moonExtract) "https://en.wikipedia.org/wiki/Moon" 45.

Definition sampleStorage : Storage.LocalStorage :=
  Storage.mkStorage
    (fun k => if String.eqb k Storage.PREFERENCES_KEY then Some "{}"
              else if String.eqb k Storage.SESSIONS_KEY then Some "[]"
              else None)
    false.
(** * Properties *)

(** ** Strings *)

Section StringFacts.

Lemma append_assoc (a b c : string) : (a +++ b) +++ c = a +++ b +++ c.
Proof. induction a as [|x a IH]; simpl; [reflexivity | now rewrite IH]. Qed.

Lemma startsWith_append (sub rest : string) : JS.startsWith (sub +++ rest) sub = true.
Proof.
  induction sub as [|c sub IH]; simpl; [reflexivity|].
  now rewrite Ascii.eqb_refl, IH.
Qed.

Lemma includes_of_startsWith (s sub : string) :
  JS.startsWith s sub = true -> JS.includes s sub = true.
Proof. intros H. destruct s; simpl in *; rewrite H; reflexivity. Qed.

Lemma includes_append_r (a t sub : string) :
  JS.includes t sub = true -> JS.includes (a +++ t) sub = true.
Proof.
  intros H. induction a as [|c a IH]; simpl; [exact H|].
  rewrite IH. apply orb_true_r.
Qed.

(** A text contains each piece it is assembled from. *)
Lemma includes_middle (a sub b : string) : JS.includes (a +++ sub +++ b) sub = true.
Proof.
  apply includes_append_r, includes_of_startsWith, startsWith_append.
Qed.

Lemma lowerChar_idem (c : ascii) : JS.lowerChar (JS.lowerChar c) = JS.lowerChar c.
Proof. destruct c as [[] [] [] [] [] [] [] []]; reflexivity. Qed.

End StringFacts.

(** ** Relevance extraction *)

Lemma score_loop (lowerParagraph : string) (tokens : list string) (acc : nat) :
  fold_left (scoreStep lowerParagraph)
            (filter (fun word => 3 <? String.length word) tokens) acc
  = acc + 2 * List.length (filter (found lowerParagraph) tokens).
Proof.
  revert acc.
  induction tokens as [|word tokens IH]; intros acc; cbn [filter fold_left].
  - cbn. lia.
  - unfold found at 1.
    destruct (3 <? String.length word) eqn:Hlen; cbn [andb fold_left];
      [|apply IH].
    rewrite IH. unfold scoreStep at 1. rewrite Hlen.
    destruct (JS.includes lowerParagraph word); cbn [List.length]; lia.
Qed.

Lemma insertByScore_In (x y : Scored) (l : list Scored) :
  In y (insertByScore x l) -> y = x \/ In y l.
Proof.
  induction l as [|z l IH]; simpl.
  - intros [H|[]]; auto.
  - destruct (score x <? score z); simpl.
    + intros [H|H]; auto. destruct (IH H); auto.
    + intros [H|[H|H]]; auto.
Qed.

Lemma sortByScore_In (y : Scored) (l : list Scored) :
  In y (sortByScore l) -> In y l.
Proof.
  induction l as [|x l IH]; simpl; [auto|].
  intros H. destruct (insertByScore_In _ _ _ H) as [->|H']; auto.
Qed.

Lemma scoreStep_no_match (lowerParagraph : string) (queryWords : list string)
  (acc : nat) :
  (forall word, In word queryWords -> JS.includes lowerParagraph word = false) ->
  fold_left (scoreStep lowerParagraph) queryWords acc = acc.
Proof.
  revert acc.
  induction queryWords as [|word ws IH]; intros acc H; cbn [fold_left];
    [reflexivity|].
  unfold scoreStep at 2. rewrite (H word (or_introl eq_refl)). apply IH.
  intros word' Hin. apply H. now right.
Qed.

Lemma scoreOf_no_match (queryWords : list string) (p : string) :
  (forall word, In word queryWords -> JS.includes (JS.toLowerCase p) word = false) ->
  scoreOf queryWords p = 0.
Proof. intros H. unfold scoreOf. now apply scoreStep_no_match. Qed.

(** C10. The score of a paragraph is twice the number of tokens of the
    question, counted with repetitions, that are longer than three
    characters and occur in the lower-cased paragraph; it is even. *)
Theorem score_counts_repeated_words (question p : string) :
  let tokens := JS.splitRuns JS.isSpace (JS.toLowerCase question) in
  scoreOf (queryWordsOf question) p
  = 2 * List.length (filter (found (JS.toLowerCase p)) tokens)
  /\ Nat.Even (scoreOf (queryWordsOf question) p).
Proof.
  intros tokens.
  assert (E : scoreOf (queryWordsOf question) p
              = 2 * List.length (filter (found (JS.toLowerCase p)) tokens)).
  { unfold scoreOf, queryWordsOf. now rewrite score_loop. }
  split; [exact E|]. rewrite E.
  now exists (List.length (filter (found (JS.toLowerCase p)) tokens)).
Qed.

(** C6. When no kept paragraph contains a word of the question, the passage
    is made of the first two kept paragraphs, in their order, joined by a
    blank line. *)
Theorem extract_falls_back_to_first_two (extract question : string) :
  (forall p word,
      In p (paragraphsOf extract) -> In word (queryWordsOf question) ->
      JS.includes (JS.toLowerCase p) word = false) ->
  extractRelevantContent (paragraphsOf extract) question
  = JS.join blankLine (firstn 2 (paragraphsOf extract))
  /\ (forall p1 p2 rest,
        paragraphsOf extract = p1 :: p2 :: rest ->
        extractRelevantContent (paragraphsOf extract) question
        = p1 +++ blankLine +++ p2).
Proof.
  intros Hno.
  assert (E : extractRelevantContent (paragraphsOf extract) question
              = JS.join blankLine (firstn 2 (paragraphsOf extract))).
  { unfold extractRelevantContent.
    set (scored := map _ (paragraphsOf extract)).
    destruct (JS.slice 0 3 (sortByScore scored)) as [|top sel] eqn:Hsel;
      [reflexivity|].
    assert (Htop : In top scored).
    { apply sortByScore_In. unfold JS.slice in Hsel. simpl in Hsel.
      destruct (sortByScore scored) as [|z zs]; [discriminate|].
      simpl in Hsel. injection Hsel as -> _. now left. }
    apply in_map_iff in Htop as (p & <- & Hp). simpl.
    rewrite scoreOf_no_match; [reflexivity|].
    intros word Hw. now apply Hno. }
  split; [exact E|].
  intros p1 p2 rest Hps. rewrite E, Hps. reflexivity.
Qed.

Lemma extract_falls_back_to_first_two_witness :
  (forall p word,
      In p (paragraphsOf moonExtract) -> In word (queryWordsOf "What is the Moon?") ->
      JS.includes (JS.toLowerCase p) word = false)
  /\ extractRelevantContent (paragraphsOf moonExtract) "What is the Moon?"
     = "The Moon is the only natural satellite of the Earth and orbits it once a month."
       +++ blankLine +++
       "Its surface is covered with craters, dark plains of old lava and bright highlands.".
Proof.
  assert (H : forall p word,
             In p (paragraphsOf moonExtract) ->
             In word (queryWordsOf "What is the Moon?") ->
             JS.includes (JS.toLowerCase p) word = false).
  { intros p word Hp Hw. vm_compute in Hp. vm_compute in Hw.
    destruct Hp as [<-|[<-|[<-|[]]]]; destruct Hw as [<-|[<-|[]]]; reflexivity. }
  split; [exact H|].
  exact (proj2 (extract_falls_back_to_first_two moonExtract "What is the Moon?" H)
               _ _ _ eq_refl).
Defined.

(** ** Computations that only draw random numbers or read the clock *)

Create HintDb quiet.

Lemma quiet_ret {A} (a : A) : quiet (ret a).
Proof. intros w s. now exists a, s. Qed.

Lemma quiet_bind {A B} (m : M A) (k : A -> M B) :
  quiet m -> (forall a, quiet (k a)) -> quiet (bind m k).
Proof.
  intros Hm Hk w s. destruct (Hm w s) as (a & s1 & E1 & R1).
  destruct (Hk a w s1) as (b & s2 & E2 & R2).
  exists b, s2. unfold bind. rewrite E1, E2. split; [reflexivity | congruence].
Qed.

Lemma quiet_mathRandom : quiet mathRandom.
Proof. intros w s. eexists _, _. split; reflexivity. Qed.

Lemma quiet_dateNow : quiet dateNow.
Proof. intros w s. eexists _, _. split; reflexivity. Qed.

#[local] Hint Resolve quiet_ret quiet_mathRandom quiet_dateNow : quiet.
#[local] Hint Extern 2 (quiet (bind _ _)) => apply quiet_bind; [|intro] : quiet.
#[local] Hint Extern 3 (quiet (if ?b then _ else _)) => destruct b : quiet.

Lemma quiet_pick (items : list string) : quiet (pick items).
Proof. unfold pick, randomIndex. auto with quiet. Qed.

#[local] Hint Resolve quiet_pick : quiet.

Lemma quiet_mapM {A B} (f : A -> M B) (l : list A) :
  (forall x, quiet (f x)) -> quiet (mapM f l).
Proof. intros Hf. induction l as [|x l IH]; simpl; auto with quiet. Qed.

Lemma quiet_rephrase (sentence : string) : quiet (rephrase sentence).
Proof. unfold rephrase, randomAbove07, randomAbove05. auto 8 with quiet. Qed.

Lemma quiet_makeContentConversational (content : string) (questionType : QuestionType) :
  quiet (makeContentConversational content questionType).
Proof.
  unfold makeContentConversational.
  apply quiet_bind; [apply quiet_mapM, quiet_rephrase | auto with quiet].
Qed.

Lemma quiet_generateConversationalResponse (question title content : string)
  (article : Page.t) :
  quiet (generateConversationalResponse question title content article).
Proof.
  unfold generateConversationalResponse.
  apply quiet_bind; [auto with quiet | intro intro].
  apply quiet_bind; [apply quiet_makeContentConversational | auto with quiet].
Qed.

Lemma quiet_generateNoResultResponse (question : string) :
  quiet (generateNoResultResponse question).
Proof. unfold generateNoResultResponse. auto with quiet. Qed.

Lemma includes_quoted (a b d q z : string) :
  JS.includes (a +++ b +++ d +++ q +++ d +++ z) (d +++ q +++ d) = true.
Proof.
  replace (a +++ b +++ d +++ q +++ d +++ z)
    with ((a +++ b) +++ (d +++ q +++ d) +++ z)
    by (rewrite !append_assoc; reflexivity).
  apply includes_middle.
Qed.

(** The run of [generateNoResultResponse]: one draw, which selects the
    opening sentence. *)
Lemma generateNoResultResponse_run (question : string) (w : World) (s : St) :
  generateNoResultResponse question w s
  = (Returns (nth (N.to_nat (N.div (N.modulo (random w (draws s)) two53
                                    * N.of_nat (List.length encouragingResponses))
                                   two53))
                  encouragingResponses ""
              +++ retryTips +++ dquote +++ question +++ dquote +++ signOff),
     mkSt (requests s) (S (draws s)) (ticks s)).
Proof. reflexivity. Qed.

(** The no-result text quotes the question. *)
Lemma generateNoResultResponse_echo (question : string) (w : World) (s s' : St)
  (text : string) :
  generateNoResultResponse question w s = (Returns text, s') ->
  JS.includes text (dquote +++ question +++ dquote) = true.
Proof.
  rewrite generateNoResultResponse_run. intros H.
  match type of H with
  | (Returns ?t, _) = _ => assert (E : text = t) by congruence
  end.
  rewrite E. apply includes_quoted.
Qed.

(** ** The handler, stage by stage *)

Lemma attemptSpellCorrection_run (query : string) (w : World) (s : St) :
  attemptSpellCorrection query w s
  = (Returns (suggest w query),
     mkSt (requests s ++ [opensearchUrl query]) (draws s) (ticks s)).
Proof.
  unfold attemptSpellCorrection, suggest.
  cbv beta iota zeta delta [tryCatch bind fetch json ret throw].
  destruct (net w (opensearchUrl query)) as [m|r]; [reflexivity|].
  destruct (body r) as [m|data]; [reflexivity|].
  cbv beta iota zeta delta [ret].
  destruct (firstSuggestion data); reflexivity.
Qed.

Lemma generateWikipediaResponse_run (question : string) (article : option Page.t)
  (hits : list Hit.t) (w : World) (s : St) :
  match skeletonOfArticle question article hits with
  | SkAnswer page passage _ =>
      exists conversation s',
        generateConversationalResponse question (Page.title page) passage page w s
        = (Returns conversation, s')
        /\ generateWikipediaResponse question article hits w s
           = (Returns (conversation +++ sourcesSection page hits), s')
  | _ =>
      exists text s',
        generateNoResultResponse question w s = (Returns text, s')
        /\ generateWikipediaResponse question article hits w s = (Returns text, s')
  end.
Proof.
  unfold skeletonOfArticle, generateWikipediaResponse.
  destruct article as [page|];
    [|destruct (quiet_generateNoResultResponse question w s) as (t & s' & E & _);
      now exists t, s'].
  destruct (Page.extract page) as [[|c extract]|];
    try (destruct (quiet_generateNoResultResponse question w s) as (t & s' & E & _);
         now exists t, s').
  destruct (quiet_generateConversationalResponse question (Page.title page)
              (extractRelevantContent (paragraphsOf (String c extract)) question)
              page w s) as (conv & s' & E & _).
  exists conv, s'. split; [exact E|].
  unfold bind. rewrite E. reflexivity.
Qed.

(** Symbolic execution of the handler: unfold the monad, then rewrite the
    scrutinee of a [match] with a hypothesis about it. *)
Ltac crank :=
  cbv beta iota zeta
      delta [tryCatch bind validateQuestion throw ret fetch json dateNow
             searchOf pagesOf retrySearch].

Ltac exec :=
  repeat (crank;
          match goal with
          | |- context [attemptSpellCorrection ?q ?w ?s] =>
              rewrite (attemptSpellCorrection_run q w s)
          | H : ?x = _ |- context [match ?x with _ => _ end] => rewrite H
          | H : ?x = _ |- context [if ?x then _ else _] => rewrite H
          end).

Lemma quiet_generateWikipediaResponse (question : string)
  (article : option Page.t) (hits : list Hit.t) :
  quiet (generateWikipediaResponse question article hits).
Proof.
  unfold generateWikipediaResponse.
  destruct article as [page|]; [|apply quiet_generateNoResultResponse].
  destruct (Page.extract page) as [[|c extract]|];
    try apply quiet_generateNoResultResponse.
  apply quiet_bind; [apply quiet_generateConversationalResponse | auto with quiet].
Qed.

Lemma realises_of_article (w : World) (question : string)
  (article : option Page.t) (hits : list Hit.t) (s0 s1 : St) (text : string)
  (elapsed : Z) :
  generateWikipediaResponse question article hits w s0 = (Returns text, s1) ->
  replyOf w question = Some (answerReply text (map Hit.title hits) elapsed) ->
  realises w question (skeletonOfArticle question article hits).
Proof.
  intros Hgen Hreply.
  pose proof (generateWikipediaResponse_run question article hits w s0) as G.
  unfold skeletonOfArticle in *.
  destruct article as [page|]; cbn [realises].
  - destruct (Page.extract page) as [[|c extract]|] eqn:Hex; cbn [realises].
    + destruct G as (t & s' & E1 & E2). exists s0, t, s', elapsed.
      split; [exact E1 | congruence].
    + destruct G as (conv & s' & E1 & E2).
      exists (String c extract), s0, conv, s', elapsed.
      split; [exact Hex|]. split; [reflexivity|].
      split; [exact E1 | congruence].
    + destruct G as (t & s' & E1 & E2). exists s0, t, s', elapsed.
      split; [exact E1 | congruence].
  - destruct G as (t & s' & E1 & E2). exists s0, t, s', elapsed.
    split; [exact E1 | congruence].
Qed.

(** Runs the handler up to the synthesis of the text, and asks for the
    text through [lemma]. *)
Ltac synth :=
  unfold replyOf, run, processQuestion; exec;
  match goal with
  | |- context [generateNoResultResponse ?q ?w ?s] =>
      let text := fresh "text" in
      let s' := fresh "s'" in
      let E := fresh "E" in
      destruct (quiet_generateNoResultResponse q w s) as (text & s' & E & _);
      exists s, text, s'; eexists; split; [exact E|];
      rewrite E; exec; reflexivity
  | |- context [generateWikipediaResponse ?q ?a ?h ?w ?s] =>
      let text := fresh "text" in
      let s' := fresh "s'" in
      let E := fresh "E" in
      destruct (quiet_generateWikipediaResponse q a h w s) as (text & s' & E & _);
      exists s, text, s'; eexists; split; [exact E|];
      rewrite E; exec; reflexivity
  end.

Ltac fails := cbn [realises]; unfold replyOf, run, processQuestion; exec; reflexivity.

(** The stage after the search: the content request and the synthesis. *)
Ltac content_stage w question bestMatch rest :=
  unfold fetchedArticle;
  let m := fresh "m" in
  let r := fresh "r" in
  let data := fresh "data" in
  let pages := fresh "pages" in
  let Hnet := fresh "Hnet" in
  let Hbody := fresh "Hbody" in
  let Hok := fresh "Hok" in
  let Hpages := fresh "Hpages" in
  destruct (net w (contentUrl (Hit.title bestMatch))) as [m|r] eqn:Hnet; [fails|];
  destruct (body r) as [m|data] eqn:Hbody; [fails|];
  destruct (ok r) eqn:Hok; [|fails];
  destruct (pageEntriesOf data) as [pages|] eqn:Hpages; [|fails];
  let R := fresh "R" in
  assert (R : exists s0 text s1 elapsed,
             generateWikipediaResponse question (firstPage pages)
               (bestMatch :: rest) w s0 = (Returns text, s1)
             /\ replyOf w question
                = Some (answerReply text (map Hit.title (bestMatch :: rest)) elapsed))
    by synth;
  destruct R as (? & ? & ? & ? & ? & ?);
  eapply realises_of_article; eassumption.

(** Every run has the outcome its functional reading computes. *)
Lemma run_realises (w : World) (question : string) :
  realises w question (skeleton w question).
Proof.
  unfold skeleton.
  destruct (String.length question <? 1) eqn:Hmin; [fails|].
  destruct (1000 <? String.length question) eqn:Hmax; [fails|].
  unfold effectiveHits, firstSearch.
  destruct (net w (searchUrl question)) as [m|r] eqn:Hnet; [fails|].
  destruct (body r) as [m|data] eqn:Hbody; [fails|].
  destruct (ok r) eqn:Hok; [|fails].
  destruct (candidatesOf data) as [[|bestMatch rest]|] eqn:Hcand; [| |fails].
  - destruct (String.eqb (suggest w question) question) eqn:Hsame.
    + cbn [realises]. synth.
    + unfold secondSearch.
      destruct (net w (searchUrl (suggest w question))) as [m|r2] eqn:Hnet2;
        [fails|].
      destruct (body r2) as [m|data2] eqn:Hbody2; [fails|].
      destruct (candidatesOf data2) as [[|bestMatch rest]|] eqn:Hcand2; [| |fails].
      * cbn [realises]. synth.
      * content_stage w question bestMatch rest.
  - content_stage w question bestMatch rest.
Qed.

(** ** The functional reading under the hypotheses of the statements *)

Lemma valid_tests (question : string) :
  valid question ->
  (String.length question <? 1) = false /\ (1000 <? String.length question) = false.
Proof.
  intros [Hmin Hmax]. split; apply Nat.ltb_ge; lia.
Qed.

Lemma effectiveHits_of_produced (w : World) (question : string)
  (bestMatch : Hit.t) (rest : list Hit.t) :
  searchProduces w question (bestMatch :: rest) ->
  effectiveHits w question = inr (bestMatch :: rest).
Proof.
  unfold searchProduces, searchReturns, retryReturns, effectiveHits, firstSearch,
    secondSearch.
  intros [(r & data & Hnet & Hok & Hbody & Hcand)
         |((r & data & Hnet & Hok & Hbody & Hcand) & Hneq
           & (r2 & data2 & Hnet2 & Hbody2 & Hcand2))].
  - now rewrite Hnet, Hbody, Hok, Hcand.
  - rewrite Hnet, Hbody, Hok, Hcand.
    apply String.eqb_neq in Hneq. rewrite Hneq.
    now rewrite Hnet2, Hbody2, Hcand2.
Qed.

Lemma effectiveHits_of_nothing (w : World) (question : string) :
  searchReturns w question [] ->
  suggest w question = question \/ retryReturns w (suggest w question) [] ->
  effectiveHits w question = inr [].
Proof.
  unfold searchReturns, retryReturns, effectiveHits, firstSearch, secondSearch.
  intros (r & data & Hnet & Hok & Hbody & Hcand) Hretry.
  rewrite Hnet, Hbody, Hok, Hcand.
  destruct (String.eqb (suggest w question) question) eqn:Hsame; [reflexivity|].
  destruct Hretry as [Heq|(r2 & data2 & Hnet2 & Hbody2 & Hcand2)].
  - apply String.eqb_neq in Hsame. contradiction.
  - now rewrite Hnet2, Hbody2, Hcand2.
Qed.


Lemma skeleton_of_failure (w : World) (question : string) (e : JsError) :
  valid question -> UpstreamFailure w question e ->
  skeleton w question = SkFailure e.
Proof.
  intros Hvalid Hfail. unfold skeleton.
  destruct (valid_tests question Hvalid) as [-> ->].
  destruct Hfail as
    [ m Hnet | r m Hnet Hbody | r data Hnet Hbody Hok
    | m Hfirst Hneq Hnet | r m Hfirst Hneq Hnet Hbody
    | bestMatch rest m Hhits Hnet | bestMatch rest r m Hhits Hnet Hbody
    | bestMatch rest r data Hhits Hnet Hbody Hok ].
  - unfold effectiveHits, firstSearch. now rewrite Hnet.
  - unfold effectiveHits, firstSearch. now rewrite Hnet, Hbody.
  - unfold effectiveHits, firstSearch. now rewrite Hnet, Hbody, Hok.
  - destruct Hfirst as (r & data & Hnet1 & Hok & Hbody & Hcand).
    unfold effectiveHits, firstSearch, secondSearch.
    rewrite Hnet1, Hbody, Hok, Hcand.
    apply String.eqb_neq in Hneq. now rewrite Hneq, Hnet.
  - destruct Hfirst as (r1 & data & Hnet1 & Hok & Hbody1 & Hcand).
    unfold effectiveHits, firstSearch, secondSearch.
    rewrite Hnet1, Hbody1, Hok, Hcand.
    apply String.eqb_neq in Hneq. now rewrite Hneq, Hnet, Hbody.
  - rewrite (effectiveHits_of_produced _ _ _ _ Hhits).
    unfold fetchedArticle. now rewrite Hnet.
  - rewrite (effectiveHits_of_produced _ _ _ _ Hhits).
    unfold fetchedArticle. now rewrite Hnet, Hbody.
  - rewrite (effectiveHits_of_produced _ _ _ _ Hhits).
    unfold fetchedArticle. now rewrite Hnet, Hbody, Hok.
Qed.

(** Whatever happens after a search that found [hits], the reply is a
    failure or carries the titles of [hits]. *)
Lemma reply_after_hits (w : World) (question : string) (bestMatch : Hit.t)
  (rest : list Hit.t) :
  valid question -> searchProduces w question (bestMatch :: rest) ->
  (exists e, replyOf w question = Some (failureReply e))
  \/ (exists text elapsed,
        replyOf w question
        = Some (answerReply text (map Hit.title (bestMatch :: rest)) elapsed)).
Proof.
  intros Hvalid Hhits. pose proof (run_realises w question) as R.
  unfold skeleton in R.
  destruct (valid_tests question Hvalid) as [Hmin Hmax]. rewrite Hmin, Hmax in R.
  rewrite (effectiveHits_of_produced _ _ _ _ Hhits) in R.
  destruct (fetchedArticle w (Hit.title bestMatch)) as [e|article].
  - left. now exists e.
  - right. unfold skeletonOfArticle in R.
    destruct article as [page|];
      [destruct (Page.extract page) as [[|c extract]|]|]; cbn [realises] in R.
    + destruct R as (_ & text & _ & elapsed & _ & R). now exists text, elapsed.
    + destruct R as (_ & _ & conv & _ & elapsed & _ & _ & _ & R).
      now exists (conv +++ sourcesSection page (bestMatch :: rest)), elapsed.
    + destruct R as (_ & text & _ & elapsed & _ & R). now exists text, elapsed.
    + destruct R as (_ & text & _ & elapsed & _ & R). now exists text, elapsed.
Qed.

(** ** The claims about the handler *)

(** C1. A question of length 0 or of more than 1000 characters is rejected
    with a failure reply, and the run sends no request (nor draws a random
    number, nor reads the clock): the validation comes before the first
    search request. *)
Theorem invalid_question_is_rejected (w : World) (question : string) :
  String.length question = 0 \/ 1000 < String.length question ->
  exists m,
    run w question = (Returns (failureReply (ZodError m)), start)
    /\ success (payload (failureReply (ZodError m))) = false
    /\ requestsOf w question = [].
Proof.
  intros Hlen. unfold requestsOf, run, processQuestion.
  cbv beta iota zeta delta [tryCatch bind validateQuestion throw ret].
  destruct Hlen as [H0|Hbig].
  - rewrite H0. cbn [Nat.ltb Nat.leb]. now exists "too_small".
  - destruct (String.length question <? 1) eqn:Hmin.
    + apply Nat.ltb_lt in Hmin. lia.
    + apply Nat.ltb_lt in Hbig. rewrite Hbig. now exists "too_big".
Qed.

Lemma invalid_question_is_rejected_witness :
  (String.length "" = 0 \/ 1000 < String.length "")
  /\ exists m,
       run offline "" = (Returns (failureReply (ZodError m)), start)
       /\ success (payload (failureReply (ZodError m))) = false
       /\ requestsOf offline "" = [].
Proof.
  split; [left; reflexivity|].
  apply (invalid_question_is_rejected offline ""). left. reflexivity.
Defined.

(** C2. When the first search finds nothing and either the corrected query
    is the question itself or the second search finds nothing either, the
    reply is a success with an empty list of sources, and its text quotes
    the question. *)
Theorem no_result_is_a_success (w : World) (question : string) :
  valid question ->
  searchReturns w question [] ->
  suggest w question = question \/ retryReturns w (suggest w question) [] ->
  exists reply text,
    replyOf w question = Some reply
    /\ httpStatus reply = 200
    /\ success (payload reply) = true
    /\ sources (payload reply) = Some []
    /\ error (payload reply) = None
    /\ response (payload reply) = Some text
    /\ JS.includes text (dquote +++ question +++ dquote) = true.
Proof.
  intros Hvalid Hfirst Hretry. pose proof (run_realises w question) as R.
  unfold skeleton in R.
  destruct (valid_tests question Hvalid) as [Hmin Hmax]. rewrite Hmin, Hmax in R.
  rewrite (effectiveHits_of_nothing _ _ Hfirst Hretry) in R. cbn [realises] in R.
  destruct R as (s & text & s' & elapsed & Hgen & Hreply).
  exists (answerReply text [] elapsed), text.
  repeat (split; [first [exact Hreply | reflexivity]|]).
  exact (generateNoResultResponse_echo _ _ _ _ _ Hgen).
Qed.

Lemma no_result_is_a_success_witness :
  valid "asdkjaslkdj"
  /\ searchReturns (nothingFound "asdkjaslkdj") "asdkjaslkdj" []
  /\ suggest (nothingFound "asdkjaslkdj") "asdkjaslkdj" = "asdkjaslkdj"
  /\ exists reply text,
       replyOf (nothingFound "asdkjaslkdj") "asdkjaslkdj" = Some reply
       /\ httpStatus reply = 200
       /\ success (payload reply) = true
       /\ sources (payload reply) = Some []
       /\ error (payload reply) = None
       /\ response (payload reply) = Some text
       /\ JS.includes text (dquote +++ "asdkjaslkdj" +++ dquote) = true.
Proof.
  assert (Hvalid : valid "asdkjaslkdj") by (unfold valid; simpl; lia).
  assert (Hfirst : searchReturns (nothingFound "asdkjaslkdj") "asdkjaslkdj" []).
  { exists (mkResponse 200 (Parses (JSearch (Some [])))), (JSearch (Some [])).
    repeat split. }
  assert (Hsame : suggest (nothingFound "asdkjaslkdj") "asdkjaslkdj" = "asdkjaslkdj")
    by reflexivity.
  repeat (split; [assumption|]).
  exact (no_result_is_a_success _ _ Hvalid Hfirst (or_introl Hsame)).
Defined.





Lemma randomIndex_in_range (u : N) (n : nat) :
  0 < n -> N.to_nat (N.div (N.modulo u two53 * N.of_nat n) two53) < n.
Proof.
  intros Hn.
  assert (Hu : (N.modulo u two53 < two53)%N) by (apply N.mod_lt; discriminate).
  assert (Hq : (N.div (N.modulo u two53 * N.of_nat n) two53 < N.of_nat n)%N).
  { apply N.Div0.div_lt_upper_bound. nia. }
  lia.
Qed.

(** The text of [generateNoResultResponse], whatever is drawn. *)
Lemma generateNoResultResponse_text (question : string) (w : World) (s s' : St)
  (text : string) :
  generateNoResultResponse question w s = (Returns text, s') ->
  noResultText question text.
Proof.
  rewrite generateNoResultResponse_run. intros H.
  match type of H with
  | (Returns (?opening +++ _), _) = _ =>
      exists opening; split; [|congruence]
  end.
  apply nth_In. apply randomIndex_in_range. cbn. lia.
Qed.

(** C4, as the code has it. On a run whose encoded texts (the question,
    the corrected query, the title of the best match) are well formed, a
    failure of the first search, of the second
    search or of the content request (no reply, a reply that cannot be
    read, or a failure status of the first search or of the content
    request) ends the run with a failure reply that carries the message of
    the error. A title without page is not such a failure: the reply is
    then a success whose text is the no-result text and whose sources are
    the titles of the hits. *)
Theorem upstream_failure_is_reported (w : World) (question : string) :
  valid question -> encodable w question ->
  (forall e,
      UpstreamFailure w question e ->
      exists reply,
        replyOf w question = Some reply
        /\ httpStatus reply = 500
        /\ success (payload reply) = false
        /\ response (payload reply) = None
        /\ error (payload reply) = Some (message e))
  /\ (forall bestMatch rest page,
        searchProduces w question (bestMatch :: rest) ->
        contentNotFound w (Hit.title bestMatch) page ->
        exists reply text,
          replyOf w question = Some reply
          /\ httpStatus reply = 200
          /\ success (payload reply) = true
          /\ error (payload reply) = None
          /\ sources (payload reply) = Some (map Hit.title (bestMatch :: rest))
          /\ response (payload reply) = Some text
          /\ noResultText question text
          /\ JS.includes text (dquote +++ question +++ dquote) = true).
Proof.
  intros Hvalid _. pose proof (run_realises w question) as R. split.
  - intros e Hfail. rewrite (skeleton_of_failure _ _ _ Hvalid Hfail) in R.
    cbn [realises] in R. exists (failureReply e). now repeat split.
  - intros bestMatch rest page Hhits (r & others & Hnet & Hok & Hbody & Hex).
    unfold skeleton in R.
    destruct (valid_tests question Hvalid) as [Hmin Hmax]. rewrite Hmin, Hmax in R.
    rewrite (effectiveHits_of_produced _ _ _ _ Hhits) in R.
    unfold fetchedArticle in R. rewrite Hnet, Hbody, Hok in R.
    cbn [pageEntriesOf firstPage skeletonOfArticle] in R. rewrite Hex in R.
    cbn [realises] in R. destruct R as (s & text & s' & elapsed & Hgen & Hreply).
    exists (answerReply text (map Hit.title (bestMatch :: rest)) elapsed), text.
    repeat (split; [first [exact Hreply | reflexivity]|]).
    split; [exact (generateNoResultResponse_text _ _ _ _ _ Hgen)|].
    exact (generateNoResultResponse_echo _ _ _ _ _ Hgen).
Qed.

Lemma upstream_failure_is_reported_witness :
  valid "What is the Moon?"
  /\ encodable contentDown "What is the Moon?"
  /\ UpstreamFailure contentDown "What is the Moon?" (TypeError "fetch failed")
  /\ exists reply,
       replyOf contentDown "What is the Moon?" = Some reply
       /\ httpStatus reply = 500
       /\ success (payload reply) = false
       /\ response (payload reply) = None
       /\ error (payload reply) = Some "fetch failed".
Proof.
  assert (Hvalid : valid "What is the Moon?") by (unfold valid; simpl; lia).
  assert (Hwf : encodable contentDown "What is the Moon?").
  { split; [reflexivity|]. split; [vm_compute; reflexivity|].
    intros bestMatch rest H. vm_compute in H. injection H as <- _. reflexivity. }
  assert (Hfail : UpstreamFailure contentDown "What is the Moon?"
                    (TypeError "fetch failed")).
  { apply (ContentRejects _ _ (hit "Moon") []); [|reflexivity].
    left. eexists _, _. repeat split. }
  repeat (split; [assumption|]).
  exact (proj1 (upstream_failure_is_reported _ _ Hvalid Hwf) _ Hfail).
Defined.

(** C4 as stated fails: the content reply files the title under [-1],
    without extract, and the reply of the handler is a success. *)
Lemma missing_page_is_answered :
  valid "What is the Moon?"
  /\ searchProduces contentMissing "What is the Moon?" [hit "Moon"]
  /\ contentNotFound contentMissing "Moon" missingPage
  /\ exists reply,
       replyOf contentMissing "What is the Moon?" = Some reply
       /\ httpStatus reply = 200
       /\ success (payload reply) = true
       /\ error (payload reply) = None.
Proof.
  split; [unfold valid; simpl; lia|].
  split; [left; eexists _, _; repeat split|].
  split; [eexists _, _; repeat split|].
  eexists. split; [vm_compute; reflexivity|]. now repeat split.
Qed.

(** ** The synthesized answer *)

(** C5, as the code has it. The answer synthesized for an article with
    a non-empty extract and a well-formed title contains the header of the sources section and a
    bullet for the title of the article, a markdown link whose text holds
    the title and whose target is the URL the service gives for the
    article or, without one, the address of the article built from its
    title. *)
Theorem answer_cites_its_source (w : World) (s : St) (question : string)
  (page : Page.t) (extract : string) (hits : list Hit.t) :
  Page.extract page = Some extract -> extract <> "" ->
  wellFormed (Page.title page) ->
  exists text s' url,
    generateWikipediaResponse question (Some page) hits w s = (Returns text, s')
    /\ JS.includes text sourcesHeader = true
    /\ JS.includes text
         (bulletMark +++ " [" +++ Page.title page +++ " on Wikipedia]("
          +++ url +++ ")" +++ nl) = true
    /\ (Page.fullurl page = Some url
        \/ url = "https://en.wikipedia.org/wiki/"
                 +++ JS.encodeURIComponent (JS.replaceChar " " "_" (Page.title page))).
Proof.
  intros Hex Hne _.
  pose proof (generateWikipediaResponse_run question (Some page) hits w s) as G.
  unfold skeletonOfArticle in G. rewrite Hex in G.
  destruct extract as [|c extract]; [contradiction|].
  destruct G as (conv & s' & _ & G).
  exists (conv +++ sourcesSection page hits), s', (articleUrl page).
  split; [exact G|]. unfold sourcesSection. split; [|split].
  - do 3 apply includes_append_r.
    apply includes_of_startsWith, startsWith_append.
  - do 5 apply includes_append_r.
    apply includes_of_startsWith, startsWith_append.
  - unfold articleUrl. destruct (Page.fullurl page) as [[|d u]|]; auto.
Qed.

Lemma answer_cites_its_source_witness :
  Page.extract moonPage = Some moonExtract /\ moonExtract <> ""
  /\ wellFormed (Page.title moonPage)
  /\ exists text s' url,
       generateWikipediaResponse "What is the Moon?" (Some moonPage)
         [hit "Moon"; hit "Moon landing"; hit "Tide"] (moonWorld 0) start
       = (Returns text, s')
       /\ JS.includes text sourcesHeader = true
       /\ JS.includes text
            (bulletMark +++ " [" +++ Page.title moonPage +++ " on Wikipedia]("
             +++ url +++ ")" +++ nl) = true
       /\ (Page.fullurl moonPage = Some url
           \/ url = "https://en.wikipedia.org/wiki/"
                    +++ JS.encodeURIComponent
                          (JS.replaceChar " " "_" (Page.title moonPage))).
Proof.
  assert (Hex : Page.extract moonPage = Some moonExtract) by reflexivity.
  assert (Hne : moonExtract <> "") by discriminate.
  assert (Hwf : wellFormed (Page.title moonPage)) by reflexivity.
  repeat (split; [assumption|]).
  exact (answer_cites_its_source _ _ _ _ _ _ Hex Hne Hwf).
Defined.

(** C5 as stated fails: for an article that was fetched and has an empty
    extract the answer is the no-result text, which has no sources header
    and no bullet. *)
Lemma answer_without_extract_has_no_sources :
  exists text s',
    generateWikipediaResponse "What is the Moon?" (Some emptyPage)
      [hit "Moon"; hit "Moon landing"] (moonWorld 0) start
    = (Returns text, s')
    /\ JS.includes text sourcesHeader = false
    /\ JS.includes text (bulletMark +++ " [") = false.
Proof.
  eexists _, _. split; [reflexivity|]. split; vm_compute; reflexivity.
Qed.

(** ** The resolver *)

(** On ASCII characters lowering is idempotent, keeps the class [\w]
    and stays in the range. *)
Lemma lowerChar_ascii (c : ascii) :
  isAsciiChar c = true ->
  JS.lowerChar (JS.lowerChar c) = JS.lowerChar c
  /\ JS.isWordChar (JS.lowerChar c) = JS.isWordChar c
  /\ isAsciiChar (JS.lowerChar c) = true.
Proof.
  destruct c as [[] [] [] [] [] [] [] []]; intros H;
    try discriminate H; repeat split.
Qed.

Lemma charAt_ascii (i : nat) (s : string) :
  asciiText s -> asciiOpt (charAt i s) = true.
Proof.
  unfold asciiText. revert i. induction s as [|c s IH]; intros i H; [reflexivity|].
  cbn [isAsciiText] in H. apply andb_true_iff in H as [Hc Hs].
  destruct i as [|i]; [exact Hc | now apply IH].
Qed.

Lemma charAt_toLowerCase (i : nat) (s : string) :
  asciiText s ->
  charAt i (JS.toLowerCase s) = option_map JS.lowerChar (charAt i s).
Proof.
  intros _. revert i. induction s as [|c s IH]; intros i; [reflexivity|].
  destruct i as [|i]; [reflexivity|]. apply IH.
Qed.

Lemma boundary_lowerChar (a b : option ascii) :
  asciiOpt a = true -> asciiOpt b = true ->
  boundary (option_map JS.lowerChar a) (option_map JS.lowerChar b) = boundary a b.
Proof.
  intros Ha Hb. unfold boundary. f_equal.
  - destruct a as [a|]; cbn; [apply (lowerChar_ascii a Ha) | reflexivity].
  - destruct b as [b|]; cbn; [apply (lowerChar_ascii b Hb) | reflexivity].
Qed.

Lemma startsWithCI_toLowerCase (s word : string) :
  asciiText s ->
  startsWithCI (JS.toLowerCase s) word = startsWithCI s word.
Proof.
  unfold asciiText. revert s. induction word as [|a word IH]; intros s H;
    [reflexivity|].
  destruct s as [|b s]; [reflexivity|]. cbn [isAsciiText] in H.
  apply andb_true_iff in H as [Hb Hs]. cbn.
  rewrite (proj1 (lowerChar_ascii b Hb)). now rewrite IH.
Qed.

Lemma matchesWordAt_toLowerCase (word : string) (prev : option ascii) (s : string) :
  asciiOpt prev = true -> asciiText s ->
  matchesWordAt word (option_map JS.lowerChar prev) (JS.toLowerCase s)
  = matchesWordAt word prev s.
Proof.
  intros Hprev Hs. unfold matchesWordAt.
  rewrite !charAt_toLowerCase by exact Hs.
  rewrite !boundary_lowerChar by (first [exact Hprev | now apply charAt_ascii]).
  now rewrite startsWithCI_toLowerCase by exact Hs.
Qed.

(** On an ASCII text the flag [i] makes the search for a word blind to
    the lowering of the text. *)
Lemma occursAsWordFrom_toLowerCase (word : string) (prev : option ascii) (s : string) :
  asciiOpt prev = true -> asciiText s ->
  occursAsWordFrom word (option_map JS.lowerChar prev) (JS.toLowerCase s)
  = occursAsWordFrom word prev s.
Proof.
  revert prev. induction s as [|c s IH]; intros prev Hprev Hs;
    cbn [occursAsWordFrom JS.toLowerCase].
  - rewrite <- (matchesWordAt_toLowerCase word prev "" Hprev Hs). reflexivity.
  - rewrite <- (matchesWordAt_toLowerCase word prev (String c s) Hprev Hs).
    cbn [JS.toLowerCase]. f_equal.
    unfold asciiText in Hs. cbn [isAsciiText] in Hs.
    apply andb_true_iff in Hs as [Hc Hs']. now apply (IH (Some c)).
Qed.

(** A replacement leaves a text without match as it is. *)
Lemma replaceWordFrom_no_match (wrong right : string) (prev : option ascii)
  (s : string) :
  occursAsWordFrom wrong prev s = false ->
  replaceWordFrom wrong right prev 0 s = s.
Proof.
  revert prev. induction s as [|c s IH]; intros prev H; [reflexivity|].
  cbn [occursAsWordFrom] in H. apply orb_false_iff in H as [Hhere Hlater].
  cbn [replaceWordFrom]. rewrite Hhere. f_equal. now apply IH.
Qed.

Lemma corrections_no_match (entries : list (string * string)) (s : string) :
  (forall wrong right, In (wrong, right) entries -> occursAsWord wrong s = false) ->
  fold_left (fun corrected entry => replaceWord (fst entry) (snd entry) corrected)
            entries s = s.
Proof.
  induction entries as [|[wrong right] entries IH]; intros H; [reflexivity|].
  cbn [fold_left fst snd]. unfold replaceWord at 2.
  rewrite replaceWordFrom_no_match by (apply (H wrong right); now left).
  apply IH. intros wrong' right' Hin. apply (H wrong' right'). now right.
Qed.

Lemma correctCommonMisspellings_no_match (query : string) :
  asciiText query -> noKnownMisspelling query ->
  correctCommonMisspellings query = JS.toLowerCase query.
Proof.
  intros Hascii H. unfold correctCommonMisspellings. apply corrections_no_match.
  intros wrong right Hin.
  exact (eq_trans (occursAsWordFrom_toLowerCase wrong None query eq_refl Hascii)
                  (H wrong right Hin)).
Qed.

(** C7, as the code has it. When the query is made of ASCII characters,
    no key of the dictionary occurs in it as a whole word and the
    suggestion request is answered without suggestion, the resolver
    returns the query in lower case: the words are kept, their capital
    letters are not. A query already in lower case comes back unchanged. *)
Theorem resolver_keeps_unmapped_words (w : World) (query : string) (s : St) :
  asciiText query -> noKnownMisspelling query -> suggestsNothing w query ->
  fst (attemptSpellCorrection query w s) = Returns (JS.toLowerCase query)
  /\ (JS.toLowerCase query = query ->
      fst (attemptSpellCorrection query w s) = Returns query).
Proof.
  intros Hascii Hdict (r & data & Hnet & Hbody & Hnone).
  assert (E : fst (attemptSpellCorrection query w s) = Returns (JS.toLowerCase query)).
  { rewrite attemptSpellCorrection_run. unfold suggest.
    rewrite Hnet, Hbody, Hnone. cbn [fst].
    now rewrite correctCommonMisspellings_no_match. }
  split; [exact E|]. intros Hlow. now rewrite E, Hlow.
Qed.

(** Decides [noKnownMisspelling] for a given query, key by key. *)
Ltac no_misspelling :=
  let Hin := fresh "Hin" in
  intros ? ? Hin; unfold corrections in Hin; cbn [In] in Hin;
  repeat (destruct Hin as [Hin|Hin]; [injection Hin as <- _; reflexivity|]);
  contradiction.

Lemma resolver_keeps_unmapped_words_witness :
  asciiText "zebra crossing"
  /\ noKnownMisspelling "zebra crossing"
  /\ suggestsNothing (nothingFound "zebra crossing") "zebra crossing"
  /\ fst (attemptSpellCorrection "zebra crossing" (nothingFound "zebra crossing") start)
     = Returns (JS.toLowerCase "zebra crossing")
  /\ (JS.toLowerCase "zebra crossing" = "zebra crossing" ->
      fst (attemptSpellCorrection "zebra crossing" (nothingFound "zebra crossing") start)
      = Returns "zebra crossing").
Proof.
  assert (Hascii : asciiText "zebra crossing") by reflexivity.
  assert (Hdict : noKnownMisspelling "zebra crossing") by no_misspelling.
  assert (Hquiet : suggestsNothing (nothingFound "zebra crossing") "zebra crossing").
  { eexists _, _. repeat split. }
  split; [exact Hascii|]. split; [exact Hdict|]. split; [exact Hquiet|].
  exact (resolver_keeps_unmapped_words _ _ start Hascii Hdict Hquiet).
Defined.

(** C7 as stated fails: no key of the dictionary occurs in the query and
    nothing is suggested, yet the resolver returns the query with its
    capital letter lowered. *)
Lemma resolver_lowers_capitals :
  noKnownMisspelling "Zebra crossing"
  /\ suggestsNothing (nothingFound "Zebra crossing") "Zebra crossing"
  /\ fst (attemptSpellCorrection "Zebra crossing" (nothingFound "Zebra crossing") start)
     = Returns "zebra crossing"
  /\ "zebra crossing" <> "Zebra crossing".
Proof.
  split; [no_misspelling|].
  split; [eexists _, _; repeat split|].
  split; [reflexivity | discriminate].
Qed.

(** C8, as the code has it. The resolver never throws. When the suggestion
    request fails (no reply, or a reply that cannot be read) it returns
    the query as it was given, dictionary not applied; the dictionary is
    applied when the request is answered, whatever the status, by a reply
    without suggestion. *)
Theorem resolver_swallows_failure (w : World) (query : string) (s : St) :
  (exists result s', attemptSpellCorrection query w s = (Returns result, s'))
  /\ (suggestionFails w query ->
      fst (attemptSpellCorrection query w s) = Returns query)
  /\ (suggestsNothing w query ->
      fst (attemptSpellCorrection query w s)
      = Returns (correctCommonMisspellings query)).
Proof.
  rewrite attemptSpellCorrection_run. cbn [fst]. split; [eauto|]. split.
  - unfold suggest. intros [(m & Hnet)|(r & m & Hnet & Hbody)].
    + now rewrite Hnet.
    + now rewrite Hnet, Hbody.
  - unfold suggest. intros (r & data & Hnet & Hbody & Hnone).
    now rewrite Hnet, Hbody, Hnone.
Qed.

Lemma resolver_swallows_failure_witness :
  suggestionFails offline "phisics"
  /\ fst (attemptSpellCorrection "phisics" offline start) = Returns "phisics".
Proof.
  assert (Hfail : suggestionFails offline "phisics") by (left; now exists "fetch failed").
  split; [exact Hfail|].
  exact (proj1 (proj2 (resolver_swallows_failure offline "phisics" start)) Hfail).
Defined.

(** C8 as stated fails: the suggestion request gets no reply and the
    resolver returns the misspelt query, not the query the dictionary
    corrects it to. *)
Lemma failed_suggestion_skips_dictionary :
  suggestionFails offline "phisics"
  /\ fst (attemptSpellCorrection "phisics" offline start) = Returns "phisics"
  /\ correctCommonMisspellings "phisics" = "physics"
  /\ fst (attemptSpellCorrection "phisics" offline start)
     <> Returns (correctCommonMisspellings "phisics").
Proof.
  split; [left; now exists "fetch failed"|].
  split; [reflexivity|]. split; [reflexivity|]. discriminate.
Qed.

(** ** Runs against the same service *)

Lemma suggest_ext (w1 w2 : World) (query : string) :
  (forall url, net w1 url = net w2 url) -> suggest w1 query = suggest w2 query.
Proof. intros H. unfold suggest. now rewrite H. Qed.

Lemma skeleton_ext (w1 w2 : World) (question : string) :
  (forall url, net w1 url = net w2 url) ->
  skeleton w1 question = skeleton w2 question.
Proof.
  intros H.
  unfold skeleton, effectiveHits, firstSearch, secondSearch, fetchedArticle.
  rewrite (suggest_ext w1 w2 question H), (H (searchUrl question)),
    (H (searchUrl (suggest w2 question))).
  destruct (String.length question <? 1); [reflexivity|].
  destruct (1000 <? String.length question); [reflexivity|].
  match goal with
  | |- match ?hits with _ => _ end = _ =>
      destruct hits as [e|[|bestMatch rest]]; try reflexivity
  end.
  now rewrite (H (contentUrl (Hit.title bestMatch))).
Qed.

Lemma reply_of_realises (w : World) (question : string) (k : Skeleton) :
  realises w question k ->
  exists reply,
    replyOf w question = Some reply
    /\ sources (payload reply) = sourcesOfSkeleton k
    /\ success (payload reply) = successOfSkeleton k.
Proof.
  destruct k as [e|titles|page passage hits]; cbn [realises].
  - intros R. exists (failureReply e). now repeat split.
  - intros (_ & text & _ & elapsed & _ & R).
    exists (answerReply text titles elapsed). now repeat split.
  - intros (_ & _ & conv & _ & elapsed & _ & _ & _ & R).
    eexists. split; [exact R|]. now split.
Qed.

(** C9. Two runs of a question against a service that gives the same
    replies have the same outcome up to phrasing and timing: both fail
    with the same error, or both give the no-result text with the same
    sources, or both synthesize the same passage of the same article
    (the passage [extractRelevantContent] selects) with the same sources.
    In particular their sources and their success flags are equal. *)
Theorem runs_agree (w1 w2 : World) (question : string) :
  (forall url, net w1 url = net w2 url) ->
  (exists k, realises w1 question k /\ realises w2 question k)
  /\ (exists reply1 reply2,
        replyOf w1 question = Some reply1 /\ replyOf w2 question = Some reply2
        /\ sources (payload reply1) = sources (payload reply2)
        /\ success (payload reply1) = success (payload reply2)).
Proof.
  intros H.
  pose proof (run_realises w1 question) as R1.
  pose proof (run_realises w2 question) as R2.
  rewrite (skeleton_ext w1 w2 question H) in R1.
  split; [now exists (skeleton w2 question)|].
  destruct (reply_of_realises _ _ _ R1) as (reply1 & E1 & S1 & B1).
  destruct (reply_of_realises _ _ _ R2) as (reply2 & E2 & S2 & B2).
  exists reply1, reply2. repeat split; congruence.
Qed.

Lemma runs_agree_witness :
  (forall url, net (moonWorld 0) url = net (moonWorld 9007199254740991) url)
  /\ (exists k,
        realises (moonWorld 0) "What is the Moon?" k
        /\ realises (moonWorld 9007199254740991) "What is the Moon?" k)
  /\ (exists reply1 reply2,
        replyOf (moonWorld 0) "What is the Moon?" = Some reply1
        /\ replyOf (moonWorld 9007199254740991) "What is the Moon?" = Some reply2
        /\ sources (payload reply1) = sources (payload reply2)
        /\ success (payload reply1) = success (payload reply2)).
Proof.
  assert (H : forall url,
             net (moonWorld 0) url = net (moonWorld 9007199254740991) url)
    by reflexivity.
  split; [exact H|].
  exact (runs_agree (moonWorld 0) (moonWorld 9007199254740991) "What is the Moon?" H).
Defined.

(** ** Sample runs *)

(** A word that comes three times in the question counts three times. *)
Example repeated_word_scores_thrice :
  scoreOf (queryWordsOf "moon moon MOON") "The Moon is a satellite." = 6.
Proof. reflexivity. Qed.

(** Paragraphs are ranked by score, the short heading is dropped. *)
Example moon_passage :
  extractRelevantContent (paragraphsOf moonExtract)
    "What craters cover the Moon surface"
  = "Its surface is covered with craters, dark plains of old lava and bright highlands."
    +++ blankLine +++
    "The Moon is the only natural satellite of the Earth and orbits it once a month."
    +++ blankLine +++
    "People first landed there in 1969, and twelve astronauts have walked on it since.".
Proof. reflexivity. Qed.

(** With the same service and other random numbers the text changes, the
    sources do not. *)
Example phrasing_varies :
  exists reply1 reply2,
    replyOf (moonWorld 0) "What is the Moon?" = Some reply1
    /\ replyOf (moonWorld 9007199254740991) "What is the Moon?" = Some reply2
    /\ response (payload reply1) <> response (payload reply2)
    /\ sources (payload reply1) = Some ["Moon"; "Moon landing"; "Tide"]
    /\ sources (payload reply2) = Some ["Moon"; "Moon landing"; "Tide"].
Proof.
  eexists _, _. split; [vm_compute; reflexivity|].
  split; [vm_compute; reflexivity|]. cbn [payload response sources].
  split; [discriminate|]. now split.
Qed.

(** The second search, made with the query the dictionary corrects, gives
    the sources. *)
Example corrected_query_gives_sources :
  suggest misspelt "quantem phisics" = "quantum physics"
  /\ exists reply,
       replyOf misspelt "quantem phisics" = Some reply
       /\ sources (payload reply) = Some ["Quantum mechanics"; "Physics"]
       /\ requestsOf misspelt "quantem phisics"
          = [ searchUrl "quantem phisics"; opensearchUrl "quantem phisics";
              searchUrl "quantum physics"; contentUrl "Quantum mechanics" ].
Proof.
  split; [reflexivity|]. eexists. split; [vm_compute; reflexivity|].
  split; reflexivity.
Qed.

(** * Further properties of the pipeline *)

(** ** What a run consumes *)

Create HintDb steady.

Lemma steady_ret {A} (a : A) : steady (ret a).
Proof. intros w s. now exists a, s. Qed.

Lemma steady_bind {A B} (m : M A) (k : A -> M B) :
  steady m -> (forall a, steady (k a)) -> steady (bind m k).
Proof.
  intros Hm Hk w s. destruct (Hm w s) as (a & s1 & E1 & R1 & T1).
  destruct (Hk a w s1) as (b & s2 & E2 & R2 & T2).
  exists b, s2. unfold bind. rewrite E1, E2.
  split; [reflexivity|]. split; congruence.
Qed.

Lemma steady_mathRandom : steady mathRandom.
Proof. intros w s. eexists _, _. repeat split. Qed.

#[local] Hint Resolve steady_ret steady_mathRandom : steady.
#[local] Hint Extern 2 (steady (bind _ _)) => apply steady_bind; [|intro] : steady.
#[local] Hint Extern 3 (steady (if ?b then _ else _)) => destruct b : steady.

Lemma steady_pick (items : list string) : steady (pick items).
Proof. unfold pick, randomIndex. auto with steady. Qed.

#[local] Hint Resolve steady_pick : steady.

Lemma steady_mapM {A B} (f : A -> M B) (l : list A) :
  (forall x, steady (f x)) -> steady (mapM f l).
Proof. intros Hf. induction l as [|x l IH]; simpl; auto with steady. Qed.

Lemma steady_rephrase (sentence : string) : steady (rephrase sentence).
Proof. unfold rephrase, randomAbove07, randomAbove05. auto 8 with steady. Qed.

Lemma steady_generateConversationalResponse (question title content : string)
  (article : Page.t) :
  steady (generateConversationalResponse question title content article).
Proof.
  unfold generateConversationalResponse.
  apply steady_bind; [auto with steady | intro intro].
  apply steady_bind; [|auto with steady].
  unfold makeContentConversational.
  apply steady_bind; [apply steady_mapM, steady_rephrase | auto with steady].
Qed.

Lemma steady_generateNoResultResponse (question : string) :
  steady (generateNoResultResponse question).
Proof. unfold generateNoResultResponse. auto with steady. Qed.

Lemma steady_generateWikipediaResponse (question : string)
  (article : option Page.t) (hits : list Hit.t) :
  steady (generateWikipediaResponse question article hits).
Proof.
  unfold generateWikipediaResponse.
  destruct article as [page|]; [|apply steady_generateNoResultResponse].
  destruct (Page.extract page) as [[|c extract]|];
    try apply steady_generateNoResultResponse.
  apply steady_bind; [apply steady_generateConversationalResponse | auto with steady].
Qed.

(** Finishes a branch of the run that ends in the [catch] clause. *)
Ltac trace_failure :=
  unfold run, processQuestion; exec;
  eexists _, _; split; [reflexivity|];
  cbn [requests ticks start app fst snd];
  split; [reflexivity|]; split; [|lia];
  right; repeat split; eexists; reflexivity.

(** Finishes a branch that ends with a synthesized text. *)
Ltac trace_success :=
  unfold run, processQuestion; exec;
  match goal with
  | |- context [generateNoResultResponse ?q ?w ?s] =>
      let text := fresh "text" in
      let s' := fresh "s'" in
      let E := fresh "E" in
      let R := fresh "R" in
      let T := fresh "T" in
      destruct (steady_generateNoResultResponse q w s) as (text & s' & E & R & T);
      rewrite E; exec
  | |- context [generateWikipediaResponse ?q ?a ?h ?w ?s] =>
      let text := fresh "text" in
      let s' := fresh "s'" in
      let E := fresh "E" in
      let R := fresh "R" in
      let T := fresh "T" in
      destruct (steady_generateWikipediaResponse q a h w s) as (text & s' & E & R & T);
      rewrite E; exec
  end;
  eexists _, _; split; [reflexivity|];
  cbn [requests ticks start app fst snd] in *;
  match goal with
  | R : requests _ = _, T : ticks _ = _ |- _ => rewrite R, T
  end;
  split; [reflexivity|]; split; [|lia];
  left; cbn; repeat split; eexists; reflexivity.

Ltac trace_content w bestMatch :=
  unfold fetchedArticle;
  let m := fresh "m" in
  let r := fresh "r" in
  let data := fresh "data" in
  let pages := fresh "pages" in
  let Hnet := fresh "Hnet" in
  let Hbody := fresh "Hbody" in
  let Hok := fresh "Hok" in
  let Hpages := fresh "Hpages" in
  destruct (net w (contentUrl (Hit.title bestMatch))) as [m|r] eqn:Hnet;
    [trace_failure|];
  destruct (body r) as [m|data] eqn:Hbody; [trace_failure|];
  destruct (ok r) eqn:Hok; [|trace_failure];
  destruct (pageEntriesOf data) as [pages|] eqn:Hpages; [|trace_failure];
  trace_success.

(** Every run ends with a reply of one of the two shapes, after the
    requests of its plan and at most two readings of the clock. *)
Lemma run_trace (w : World) (question : string) :
  exists reply st,
    run w question = (Returns reply, st)
    /\ requests st = requestPlan w question
    /\ wellShaped w reply
    /\ ticks st <= 2.
Proof.
  unfold requestPlan.
  destruct (String.length question <? 1) eqn:Hmin; [trace_failure|].
  destruct (1000 <? String.length question) eqn:Hmax; [trace_failure|].
  unfold firstSearch.
  destruct (net w (searchUrl question)) as [m|r] eqn:Hnet; [trace_failure|].
  destruct (body r) as [m|data] eqn:Hbody; [trace_failure|].
  destruct (ok r) eqn:Hok; [|trace_failure].
  destruct (candidatesOf data) as [[|bestMatch rest]|] eqn:Hcand;
    [| |trace_failure].
  - destruct (String.eqb (suggest w question) question) eqn:Hsame;
      [trace_success|].
    unfold secondSearch.
    destruct (net w (searchUrl (suggest w question))) as [m|r2] eqn:Hnet2;
      [trace_failure|].
    destruct (body r2) as [m|data2] eqn:Hbody2; [trace_failure|].
    destruct (candidatesOf data2) as [[|bestMatch rest]|] eqn:Hcand2;
      [trace_success| |trace_failure].
    trace_content w bestMatch.
  - trace_content w bestMatch.
Qed.

(** X1. A run on a valid question whose encoded texts (the question, the
    corrected query, the title of the best match) are well formed starts
    with the search for the question; the suggestion request and one
    second search may follow, then at most one content request: never more
    than four requests, never a second article. *)
Theorem requests_of_a_run (w : World) (question : string) :
  valid question -> encodable w question ->
  exists retry content,
    requestsOf w question = searchUrl question :: retry ++ content
    /\ (retry = [] \/ retry = [opensearchUrl question]
        \/ retry = [opensearchUrl question; searchUrl (suggest w question)])
    /\ (content = [] \/ exists bestMatch, content = [contentUrl (Hit.title bestMatch)])
    /\ List.length (requestsOf w question) <= 4.
Proof.
  intros Hvalid _. destruct (run_trace w question) as (reply & st & Hrun & Hreq & _).
  unfold requestsOf. rewrite Hrun. cbn [snd]. rewrite Hreq. unfold requestPlan.
  destruct (valid_tests question Hvalid) as [-> ->].
  assert (Hcontent : forall hits,
            contentRequest hits = []
            \/ exists bestMatch, contentRequest hits = [contentUrl (Hit.title bestMatch)]).
  { intros [e|[|bestMatch rest]]; cbn; eauto. }
  assert (Hlen : forall hits, List.length (contentRequest hits) <= 1).
  { intros [e|[|bestMatch rest]]; cbn; lia. }
  destruct (firstSearch w question) as [e|[|bestMatch rest]].
  - exists [], []. cbn. repeat split; auto; lia.
  - destruct (String.eqb (suggest w question) question).
    + exists [opensearchUrl question], []. cbn. repeat split; auto; lia.
    + exists [opensearchUrl question; searchUrl (suggest w question)],
        (contentRequest (secondSearch w (suggest w question))).
      split; [reflexivity|]. split; [auto|]. split; [apply Hcontent|].
      cbn [List.length]. specialize (Hlen (secondSearch w (suggest w question))). lia.
  - exists [], [contentUrl (Hit.title bestMatch)]. cbn.
    repeat split; eauto; lia.
Qed.

Lemma requests_of_a_run_witness :
  valid "quantem phisics"
  /\ encodable misspelt "quantem phisics"
  /\ exists retry content,
       requestsOf misspelt "quantem phisics"
       = searchUrl "quantem phisics" :: retry ++ content
       /\ (retry = [] \/ retry = [opensearchUrl "quantem phisics"]
           \/ retry = [opensearchUrl "quantem phisics";
                       searchUrl (suggest misspelt "quantem phisics")])
       /\ (content = []
           \/ exists bestMatch, content = [contentUrl (Hit.title bestMatch)])
       /\ List.length (requestsOf misspelt "quantem phisics") <= 4.
Proof.
  assert (Hvalid : valid "quantem phisics") by (unfold valid; simpl; lia).
  assert (Hwf : encodable misspelt "quantem phisics").
  { split; [reflexivity|]. split; [vm_compute; reflexivity|].
    intros bestMatch rest H. vm_compute in H.
    injection H as <- _. reflexivity. }
  split; [exact Hvalid|]. split; [exact Hwf|].
  exact (requests_of_a_run misspelt _ Hvalid Hwf).
Defined.

(** X2. Every run ends with exactly one reply. It is either a success
    (status 200) with a text, a list of sources, no error and, as
    processing time, the second reading of the clock minus the first one;
    or a failure (status 500) with an error message and no other field. *)
Theorem every_run_replies (w : World) (question : string) :
  exists reply,
    replyOf w question = Some reply /\ wellShaped w reply
    /\ clockReadsOf w question <= 2.
Proof.
  destruct (run_trace w question) as (reply & st & Hrun & _ & Hshape & Hticks).
  exists reply. unfold replyOf, clockReadsOf. rewrite Hrun. now repeat split.
Qed.

(** ** Ranking of the paragraphs *)

Lemma insertByScore_perm (x : Scored) (l : list Scored) :
  Permutation (x :: l) (insertByScore x l).
Proof.
  induction l as [|y l IH]; cbn [insertByScore]; [reflexivity|].
  destruct (score x <? score y); [|reflexivity].
  rewrite perm_swap. now apply perm_skip.
Qed.

Lemma insertByScore_sorted (x : Scored) (l : list Scored) :
  StronglySorted (fun a b => score b <= score a) l ->
  StronglySorted (fun a b => score b <= score a) (insertByScore x l).
Proof.
  induction l as [|y l IH]; intros Hs; cbn [insertByScore].
  - repeat constructor.
  - inversion Hs as [|? ? Hl Hy]; subst.
    destruct (score x <? score y) eqn:Hlt.
    + apply Nat.ltb_lt in Hlt. constructor; [now apply IH|].
      apply (Permutation_Forall (insertByScore_perm x l)).
      constructor; [lia | exact Hy].
    + apply Nat.ltb_ge in Hlt. constructor; [exact Hs|].
      constructor; [exact Hlt|].
      eapply Forall_impl; [|exact Hy]. cbn. intros; lia.
Qed.

Lemma insertByScore_filter (k : nat) (x : Scored) (l : list Scored) :
  filter (fun p => score p =? k) (insertByScore x l)
  = filter (fun p => score p =? k) (x :: l).
Proof.
  induction l as [|y l IH]; cbn [insertByScore]; [reflexivity|].
  destruct (score x <? score y) eqn:Hlt; [|reflexivity].
  apply Nat.ltb_lt in Hlt.
  cbn [filter] in *. rewrite IH.
  destruct (score x =? k) eqn:Hx, (score y =? k) eqn:Hy; try reflexivity.
  apply Nat.eqb_eq in Hx, Hy. lia.
Qed.

Lemma sortByScore_perm (l : list Scored) : Permutation l (sortByScore l).
Proof.
  induction l as [|x l IH]; cbn [sortByScore fold_right]; [constructor|].
  fold (sortByScore l). rewrite <- insertByScore_perm. now apply perm_skip.
Qed.

Lemma sortByScore_sorted (l : list Scored) :
  StronglySorted (fun a b => score b <= score a) (sortByScore l).
Proof.
  induction l as [|x l IH]; cbn [sortByScore fold_right]; [constructor|].
  fold (sortByScore l). now apply insertByScore_sorted.
Qed.

(** X3. The ranking keeps every paragraph, puts the scores in
    non-increasing order and leaves paragraphs of equal score in the order
    of the article. *)
Theorem ranking_is_a_stable_sort (l : list Scored) :
  Permutation l (sortByScore l)
  /\ StronglySorted (fun a b => score b <= score a) (sortByScore l)
  /\ (forall k,
        filter (fun p => score p =? k) (sortByScore l)
        = filter (fun p => score p =? k) l).
Proof.
  split; [apply sortByScore_perm|]. split; [apply sortByScore_sorted|].
  intros k. induction l as [|x l IH]; [reflexivity|].
  cbn [sortByScore fold_right]. fold (sortByScore l).
  rewrite insertByScore_filter. cbn [filter]. now rewrite IH.
Qed.

Lemma insertByScore_zeros (x : Scored) (l : list Scored) :
  Forall (fun p => score p = 0) l -> insertByScore x l = x :: l.
Proof.
  intros H. destruct l as [|y l]; [reflexivity|]. cbn [insertByScore].
  inversion H as [|? ? Hy _]; subst. rewrite Hy.
  now destruct (score x).
Qed.

Lemma sortByScore_zeros (l : list Scored) :
  Forall (fun p => score p = 0) l -> sortByScore l = l.
Proof.
  induction l as [|x l IH]; intros H; [reflexivity|].
  inversion H as [|? ? Hx Hl]; subst.
  cbn [sortByScore fold_right]. fold (sortByScore l).
  rewrite (IH Hl). now apply insertByScore_zeros.
Qed.

Lemma sortByScore_single_match (before after : list Scored) (x : Scored) :
  0 < score x ->
  Forall (fun p => score p = 0) (before ++ after) ->
  sortByScore (before ++ x :: after) = x :: before ++ after.
Proof.
  intros Hx. induction before as [|b before IH]; intros Hz.
  - cbn [app sortByScore fold_right]. fold (sortByScore after).
    rewrite (sortByScore_zeros after Hz).
    destruct after as [|y after]; [reflexivity|]. cbn [insertByScore].
    inversion Hz as [|? ? Hy _]; subst. rewrite Hy. reflexivity.
  - cbn [app] in Hz. inversion Hz as [|? ? Hb Hrest]; subst.
    cbn [app sortByScore fold_right]. fold (sortByScore (before ++ x :: after)).
    rewrite (IH Hrest). cbn [insertByScore].
    replace (score b <? score x) with true
      by (symmetry; apply Nat.ltb_lt; lia).
    f_equal. now apply insertByScore_zeros.
Qed.

(** X4. When one paragraph alone contains words of the question, it opens
    the passage wherever it stands in the article; the first two of the
    other paragraphs follow, in their order, all trimmed. *)
Theorem single_match_is_ranked_first (before after : list string)
  (p question : string) :
  0 < scoreOf (queryWordsOf question) p ->
  (forall p', In p' (before ++ after) -> scoreOf (queryWordsOf question) p' = 0) ->
  extractRelevantContent (before ++ p :: after) question
  = JS.join blankLine (JS.trim p :: map JS.trim (firstn 2 (before ++ after))).
Proof.
  intros Hp Hrest. unfold extractRelevantContent.
  set (f := fun paragraph => mkScored (JS.trim paragraph)
                               (scoreOf (queryWordsOf question) paragraph)).
  rewrite map_app. cbn [map].
  rewrite (sortByScore_single_match (map f before) (map f after) (f p));
    [|exact Hp|].
  - unfold JS.slice. change (3 - 0) with 3. cbn [skipn].
    rewrite (firstn_cons 2).
    destruct (score (f p) =? 0) eqn:Hz;
      [apply Nat.eqb_eq in Hz; cbn in Hz; lia|].
    cbn [map]. change (paragraph (f p)) with (JS.trim p). do 2 f_equal.
    rewrite <- map_app, <- !firstn_map, map_map. reflexivity.
  - rewrite <- map_app. apply Forall_forall. intros x Hin.
    apply in_map_iff in Hin as (p' & <- & Hin). cbn. now apply Hrest.
Qed.

Lemma single_match_is_ranked_first_witness :
  0 < scoreOf (queryWordsOf "lunar craters")
        "Its surface is covered with craters, dark plains of old lava and bright highlands."
  /\ extractRelevantContent
       (["The Moon is the only natural satellite of the Earth and orbits it once a month."]
        ++ "Its surface is covered with craters, dark plains of old lava and bright highlands."
        :: ["People first landed there in 1969, and twelve astronauts have walked on it since."])
       "lunar craters"
     = JS.join blankLine
         (JS.trim "Its surface is covered with craters, dark plains of old lava and bright highlands."
          :: map JS.trim
               (firstn 2
                  (["The Moon is the only natural satellite of the Earth and orbits it once a month."]
                   ++ ["People first landed there in 1969, and twelve astronauts have walked on it since."]))).
Proof.
  assert (Hp : 0 < scoreOf (queryWordsOf "lunar craters")
                     "Its surface is covered with craters, dark plains of old lava and bright highlands.")
    by (vm_compute; lia).
  split; [exact Hp|].
  apply (single_match_is_ranked_first _ _ _ _ Hp).
  intros p' Hin. cbn [app In] in Hin. destruct Hin as [<-|[<-|[]]]; reflexivity.
Defined.

(** ** The dictionary of misspellings *)

Lemma toLowerCase_append (a b : string) :
  JS.toLowerCase (a +++ b) = JS.toLowerCase a +++ JS.toLowerCase b.
Proof. induction a as [|c a IH]; cbn; [reflexivity | now rewrite IH]. Qed.

Lemma lowerCased_toLowerCase (s : string) : lowerCased (JS.toLowerCase s).
Proof.
  unfold lowerCased. induction s as [|c s IH]; cbn; [reflexivity|].
  now rewrite lowerChar_idem, IH.
Qed.

Lemma replaceWordFrom_lowerCased (wrong right : string) (prev : option ascii)
  (skip : nat) (s : string) :
  lowerCased right -> lowerCased s ->
  lowerCased (replaceWordFrom wrong right prev skip s).
Proof.
  unfold lowerCased. intros Hright.
  revert prev skip. induction s as [|c s IH]; intros prev skip Hs; [reflexivity|].
  cbn [JS.toLowerCase] in Hs. injection Hs as Hc Hs.
  cbn [replaceWordFrom]. destruct skip as [|k]; [|now apply IH].
  destruct (matchesWordAt wrong prev (String c s)).
  - rewrite toLowerCase_append, Hright. f_equal. now apply IH.
  - cbn [JS.toLowerCase]. rewrite Hc. f_equal. now apply IH.
Qed.

Lemma corrections_lowerCased (entries : list (string * string)) (s : string) :
  Forall (fun entry => lowerCased (snd entry)) entries ->
  lowerCased s ->
  lowerCased
    (fold_left (fun corrected entry => replaceWord (fst entry) (snd entry) corrected)
               entries s).
Proof.
  intros Hentries. revert s.
  induction Hentries as [|entry entries Hentry _ IH]; intros s Hs; [exact Hs|].
  cbn [fold_left]. apply IH. now apply replaceWordFrom_lowerCased.
Qed.

Lemma corrections_values_lowerCased :
  Forall (fun entry => lowerCased (snd entry)) corrections.
Proof. repeat constructor. Qed.

(** X5. The query the dictionary returns holds no capital letter,
    whatever the query. *)
Theorem corrected_query_is_lower_case (query : string) :
  lowerCased (correctCommonMisspellings query).
Proof.
  unfold correctCommonMisspellings.
  apply corrections_lowerCased;
    [exact corrections_values_lowerCased | apply lowerCased_toLowerCase].
Qed.

(** X6. A question with a capital letter is searched twice when the first
    search finds nothing and nothing is suggested: the corrected query is
    in lower case, so it differs from the question and the second search
    is sent, even if the dictionary had nothing to correct. *)
Theorem capital_letter_forces_second_search (w : World) (question : string) :
  valid question -> ~ lowerCased question ->
  searchReturns w question [] -> suggestsNothing w question ->
  suggest w question = correctCommonMisspellings question
  /\ suggest w question <> question
  /\ exists content,
       requestsOf w question
       = searchUrl question :: opensearchUrl question
         :: searchUrl (correctCommonMisspellings question) :: content.
Proof.
  intros Hvalid Hcap (r & data & Hnet & Hok & Hbody & Hcand)
         (r2 & data2 & Hnet2 & Hbody2 & Hnone).
  assert (Hsug : suggest w question = correctCommonMisspellings question).
  { unfold suggest. now rewrite Hnet2, Hbody2, Hnone. }
  assert (Hneq : suggest w question <> question).
  { rewrite Hsug. intros Heq. apply Hcap. rewrite <- Heq.
    unfold correctCommonMisspellings.
    apply corrections_lowerCased;
      [exact corrections_values_lowerCased | apply lowerCased_toLowerCase]. }
  split; [exact Hsug|]. split; [exact Hneq|].
  destruct (run_trace w question) as (reply & st & Hrun & Hreq & _).
  unfold requestsOf. rewrite Hrun. cbn [snd]. rewrite Hreq. unfold requestPlan.
  destruct (valid_tests question Hvalid) as [-> ->].
  unfold firstSearch. rewrite Hnet, Hbody, Hok, Hcand.
  apply String.eqb_neq in Hneq. rewrite Hneq, Hsug. eauto.
Qed.

Lemma capital_letter_forces_second_search_witness :
  valid "Zebra crossing" /\ ~ lowerCased "Zebra crossing"
  /\ searchReturns (nothingFound "Zebra crossing") "Zebra crossing" []
  /\ suggestsNothing (nothingFound "Zebra crossing") "Zebra crossing"
  /\ suggest (nothingFound "Zebra crossing") "Zebra crossing"
     = correctCommonMisspellings "Zebra crossing"
  /\ suggest (nothingFound "Zebra crossing") "Zebra crossing" <> "Zebra crossing"
  /\ exists content,
       requestsOf (nothingFound "Zebra crossing") "Zebra crossing"
       = searchUrl "Zebra crossing" :: opensearchUrl "Zebra crossing"
         :: searchUrl (correctCommonMisspellings "Zebra crossing") :: content.
Proof.
  assert (Hvalid : valid "Zebra crossing") by (unfold valid; simpl; lia).
  assert (Hcap : ~ lowerCased "Zebra crossing") by discriminate.
  assert (Hfirst : searchReturns (nothingFound "Zebra crossing") "Zebra crossing" []).
  { eexists _, _. repeat split. }
  assert (Hquiet : suggestsNothing (nothingFound "Zebra crossing") "Zebra crossing").
  { eexists _, _. repeat split. }
  repeat (split; [assumption|]).
  exact (capital_letter_forces_second_search _ _ Hvalid Hcap Hfirst Hquiet).
Defined.

Lemma corrections_alone :
  forallb
    (fun entry =>
       String.eqb
         (fold_left
            (fun corrected e => replaceWord (fst e) (snd e) corrected)
            corrections (fst entry))
         (snd entry))
    corrections = true.
Proof. vm_compute. reflexivity. Qed.

(** X7. A query that is one key of the dictionary, in any letter case, is
    corrected to the value of that key: no other entry of the table undoes
    or redoes the correction. *)
Theorem lone_misspelling_is_corrected (query wrong right : string) :
  In (wrong, right) corrections -> JS.toLowerCase query = wrong ->
  correctCommonMisspellings query = right.
Proof.
  intros Hin Hlow. unfold correctCommonMisspellings. rewrite Hlow.
  pose proof (proj1 (forallb_forall _ _) corrections_alone (wrong, right) Hin) as H.
  cbn [fst snd] in H. now apply String.eqb_eq in H.
Qed.

Lemma lone_misspelling_is_corrected_witness :
  In ("einstien", "einstein") corrections
  /\ JS.toLowerCase "EinStien" = "einstien"
  /\ correctCommonMisspellings "EinStien" = "einstein".
Proof.
  assert (Hin : In ("einstien", "einstein") corrections).
  { unfold corrections. cbn [In]. do 18 right. now left. }
  assert (Hlow : JS.toLowerCase "EinStien" = "einstien") by reflexivity.
  repeat (split; [assumption|]).
  exact (lone_misspelling_is_corrected _ _ _ Hin Hlow).
Defined.

(** ** The conversational wording *)

(** X8. A question classified [compare] is worded exactly as a question
    classified [general]: the class has no wording of its own. *)
Theorem compare_is_worded_as_general (q1 q2 title content : string)
  (article : Page.t) (w : World) (s : St) :
  detectQuestionType q1 = Compare -> detectQuestionType q2 = General ->
  generateConversationalResponse q1 title content article w s
  = generateConversationalResponse q2 title content article w s.
Proof.
  intros H1 H2. unfold generateConversationalResponse. now rewrite H1, H2.
Qed.

Lemma compare_is_worded_as_general_witness :
  detectQuestionType "Compare democracy and republic" = Compare
  /\ detectQuestionType "Tell me about artificial intelligence" = General
  /\ generateConversationalResponse "Compare democracy and republic"
       "Democracy" moonExtract moonPage (moonWorld 0) start
     = generateConversationalResponse "Tell me about artificial intelligence"
         "Democracy" moonExtract moonPage (moonWorld 0) start.
Proof.
  assert (H1 : detectQuestionType "Compare democracy and republic" = Compare)
    by reflexivity.
  assert (H2 : detectQuestionType "Tell me about artificial intelligence" = General)
    by reflexivity.
  repeat (split; [assumption|]).
  exact (compare_is_worded_as_general _ _ _ _ _ _ _ H1 H2).
Defined.

Lemma startsWith_refl (s : string) : JS.startsWith s s = true.
Proof. induction s as [|c s IH]; cbn; [reflexivity|]. now rewrite Ascii.eqb_refl. Qed.

Lemma includes_refl (s : string) : JS.includes s s = true.
Proof. apply includes_of_startsWith, startsWith_refl. Qed.

Lemma startsWith_append_l (a t sub : string) :
  JS.startsWith a sub = true -> JS.startsWith (a +++ t) sub = true.
Proof.
  revert a. induction sub as [|c sub IH]; intros a H; [reflexivity|].
  destruct a as [|d a]; [discriminate|]. cbn in *.
  apply andb_true_iff in H as [Hc Hs]. now rewrite Hc, IH.
Qed.

Lemma includes_append_l (a t sub : string) :
  JS.includes a sub = true -> JS.includes (a +++ t) sub = true.
Proof.
  induction a as [|c a IH]; intros H.
  - cbn in H. rewrite orb_false_r in H.
    apply includes_of_startsWith. now apply (startsWith_append_l "" t sub).
  - cbn [JS.includes] in H. apply orb_true_iff in H as [H|H].
    + apply includes_of_startsWith. now apply startsWith_append_l.
    + change (String c a +++ t) with (String c (a +++ t)). cbn [JS.includes].
      rewrite (IH H). apply orb_true_r.
Qed.

Lemma startsWith_decompose (s sub : string) :
  JS.startsWith s sub = true -> exists rest, s = sub +++ rest.
Proof.
  revert s. induction sub as [|c sub IH]; intros s H; [now exists s|].
  destruct s as [|d s]; [discriminate|]. cbn in H.
  apply andb_true_iff in H as [Hc Hs]. apply Ascii.eqb_eq in Hc. subst d.
  destruct (IH s Hs) as (rest & ->). now exists rest.
Qed.

Lemma includes_decompose (s sub : string) :
  JS.includes s sub = true -> exists before rest, s = before +++ sub +++ rest.
Proof.
  induction s as [|c s IH]; cbn [JS.includes]; intros H.
  - rewrite orb_false_r in H. destruct (startsWith_decompose _ _ H) as (rest & E).
    now exists "", rest.
  - apply orb_true_iff in H as [H|H].
    + destruct (startsWith_decompose _ _ H) as (rest & E). now exists "", rest.
    + destruct (IH H) as (before & rest & ->). now exists (String c before), rest.
Qed.

(** A part of a part of a text is a part of the text. *)
Lemma includes_trans (s mid sub : string) :
  JS.includes s mid = true -> JS.includes mid sub = true ->
  JS.includes s sub = true.
Proof.
  intros H1 H2.
  destruct (includes_decompose _ _ H1) as (b1 & r1 & ->).
  destruct (includes_decompose _ _ H2) as (b2 & r2 & ->).
  rewrite !append_assoc. apply includes_append_r, includes_append_r.
  rewrite <- append_assoc. apply includes_append_l.
  apply includes_of_startsWith, startsWith_append.
Qed.

Lemma includes_join (sep y : string) (ys : list string) :
  In y ys -> JS.includes (JS.join sep ys) y = true.
Proof.
  unfold JS.join. induction ys as [|x ys IH]; intros Hin; [contradiction|].
  destruct ys as [|x' ys].
  - destruct Hin as [->|[]]. apply includes_refl.
  - change (String.concat sep (x :: x' :: ys))
      with (x +++ sep +++ String.concat sep (x' :: ys)).
    destruct Hin as [->|Hin].
    + apply includes_append_l, includes_refl.
    + do 2 apply includes_append_r. now apply IH.
Qed.

Lemma rephrase_keeps (sentence : string) (w : World) (s : St) (out : string)
  (s' : St) :
  rephrase sentence w s = (Returns out, s') -> kept sentence out.
Proof.
  unfold rephrase, randomAbove07, randomAbove05, pick, randomIndex.
  cbv beta iota zeta delta [bind mathRandom ret].
  set (t := JS.trim sentence).
  destruct (N.ltb 6305039478318694 _).
  - cbv beta iota zeta. set (c := nth _ sentenceConnectors "").
    destruct (100 <? String.length (c +++ JS.toLowerCase t)).
    + cbv beta iota zeta. destruct (N.ltb 4503599627370496 _); intros H;
        match type of H with
        | (Returns ?x, _) = _ => assert (E : out = x) by congruence
        end; rewrite E; right.
      * apply includes_append_r, includes_append_l, includes_append_r, includes_refl.
      * apply includes_append_r, includes_refl.
    + intros H.
      match type of H with
      | (Returns ?x, _) = _ => assert (E : out = x) by congruence
      end. rewrite E. right. apply includes_append_r, includes_refl.
  - cbv beta iota zeta. destruct (100 <? String.length t).
    + cbv beta iota zeta. destruct (N.ltb 4503599627370496 _); intros H;
        match type of H with
        | (Returns ?x, _) = _ => assert (E : out = x) by congruence
        end; rewrite E; left.
      * apply includes_append_r, includes_append_l, includes_refl.
      * apply includes_refl.
    + intros H.
      match type of H with
      | (Returns ?x, _) = _ => assert (E : out = x) by congruence
      end. rewrite E. left. apply includes_refl.
Qed.

Lemma mapM_Forall2 {A B} (f : A -> M B) (R : A -> B -> Prop) :
  (forall x w s y s', f x w s = (Returns y, s') -> R x y) ->
  forall l w s ys s', mapM f l w s = (Returns ys, s') -> Forall2 R l ys.
Proof.
  intros Hf. induction l as [|x l IH]; intros w s ys s'; cbn [mapM].
  - unfold ret. intros H. assert (ys = []) by congruence. subst. constructor.
  - unfold bind at 1. destruct (f x w s) as [[y|e] s1] eqn:Ex; [|discriminate].
    unfold bind at 1. destruct (mapM f l w s1) as [[ys'|e] s2] eqn:El;
      [|discriminate].
    unfold ret. intros H. assert (ys = y :: ys') by congruence. subst.
    constructor; [now apply (Hf x w s y s1) | now apply (IH w s1 ys' s2)].
Qed.

(** X9. The conversational text is made of the first four sentences of
    the content that are longer than ten characters: each of them is in
    the text, trimmed, in its own letters or in lower case. *)
Theorem first_sentences_are_kept (content : string) (questionType : QuestionType)
  (w : World) (s : St) :
  exists text s',
    makeContentConversational content questionType w s = (Returns text, s')
    /\ forall sentence,
         In sentence
            (firstn 4 (filter (fun piece => 10 <? String.length (JS.trim piece))
                              (JS.splitRuns isSentenceEnd content))) ->
         kept sentence text.
Proof.
  destruct (quiet_makeContentConversational content questionType w s)
    as (text & s' & E & _).
  exists text, s'. split; [exact E|]. intros sentence Hin.
  unfold makeContentConversational in E. unfold bind at 1 in E.
  destruct (mapM rephrase _ w s) as [[outs|e] s1] eqn:Emap; [|discriminate].
  pose proof (mapM_Forall2 rephrase kept rephrase_keeps _ _ _ _ _ Emap) as Hall.
  unfold pick, randomIndex in E.
  cbv beta iota zeta delta [bind mathRandom ret] in E.
  match type of E with
  | (Returns ?x, _) = _ => assert (Et : text = x) by congruence
  end.
  unfold JS.slice in Hall. change (4 - 0) with 4 in Hall. cbn [skipn] in Hall.
  assert (Hout : exists out, In out outs /\ kept sentence out).
  { clear -Hall Hin. induction Hall as [|x y l l' Hxy _ IH]; [contradiction|].
    destruct Hin as [->|Hin].
    - exists y. split; [now left | exact Hxy].
    - destruct (IH Hin) as (out & Hout & Hk). exists out. split; [now right | exact Hk]. }
  destruct Hout as (out & Hout & Hk). rewrite Et.
  assert (Hsub : forall sub, JS.includes out sub = true ->
                 JS.includes (JS.join (nth (N.to_nat
                    (N.div (N.modulo (random w (draws s1)) two53
                            * N.of_nat (List.length joinConnectors)) two53))
                    joinConnectors "") outs) sub = true).
  { intros sub Hsub. eapply includes_trans; [|exact Hsub].
    now apply includes_join. }
  destruct Hk as [Hk|Hk]; [left | right]; now apply Hsub.
Qed.

(** ** The search route *)

Lemma map_copyHit (hits : list Hit.t) : map SearchRoute.copyHit hits = hits.
Proof.
  induction hits as [|[t sn p sz wc ts] hits IH]; [reflexivity|].
  cbn [map]. now rewrite IH.
Qed.

(** X10. The search route turns down, with status 400 and before any
    request is sent, every request whose [q] is not one text of 1 to 500
    characters, and every request that carries a [limit] parameter: the
    schema wants a number there and the query string holds none. *)
Theorem search_route_rejects (w : World) (s : St) (req : SearchRoute.Query) :
  SearchRoute.limit req <> Absent
  \/ (forall value, SearchRoute.q req = Text value ->
        String.length value = 0 \/ 500 < String.length value) ->
  exists m,
    SearchRoute.handler req w s
    = (Returns (SearchRoute.mkReply 400
                  (SearchRoute.mkBody false None None None (Some m))), s).
Proof.
  intros Hbad.
  assert (Hissues : SearchRoute.issues req <> []).
  { unfold SearchRoute.issues. destruct Hbad as [Hlimit|Hq].
    - assert (exists i, SearchRoute.issueOfLimit (SearchRoute.limit req) = Some i)
        as (i & ->)
        by (destruct (SearchRoute.limit req); [contradiction| | |]; now eexists).
      now destruct (SearchRoute.issueOfQ _).
    - assert (exists i, SearchRoute.issueOfQ (SearchRoute.q req) = Some i)
        as (i & ->); [|discriminate].
      destruct (SearchRoute.q req) as [|value| |]; try (now eexists).
      cbn [SearchRoute.issueOfQ]. destruct (Hq value eq_refl) as [H0|Hbig].
      + rewrite H0. now eexists.
      + destruct (String.length value <? 1); [now eexists|].
        apply Nat.ltb_lt in Hbig. rewrite Hbig. now eexists. }
  unfold SearchRoute.handler, SearchRoute.parse.
  cbv beta iota zeta delta [tryCatch bind throw ret].
  destruct (SearchRoute.issues req) as [|i found]; [contradiction|].
  destruct (SearchRoute.q req); eexists; reflexivity.
Qed.

Lemma search_route_rejects_witness :
  (SearchRoute.limit (SearchRoute.mkQuery (Text "moon") (Text "5")) <> Absent
   \/ (forall value,
         SearchRoute.q (SearchRoute.mkQuery (Text "moon") (Text "5")) = Text value ->
         String.length value = 0 \/ 500 < String.length value))
  /\ exists m,
       SearchRoute.handler (SearchRoute.mkQuery (Text "moon") (Text "5"))
         (moonWorld 0) start
       = (Returns (SearchRoute.mkReply 400
                     (SearchRoute.mkBody false None None None (Some m))), start).
Proof.
  assert (H : SearchRoute.limit (SearchRoute.mkQuery (Text "moon") (Text "5")) <> Absent)
    by discriminate.
  split; [left; exact H|].
  exact (search_route_rejects (moonWorld 0) start _ (or_introl H)).
Defined.

(** A request the search route accepts. *)
Lemma search_route_parse (req : SearchRoute.Query) (value : string) :
  SearchRoute.q req = Text value -> SearchRoute.limit req = Absent ->
  1 <= String.length value <= 500 ->
  SearchRoute.parse req = ret (value, 5).
Proof.
  intros Hq Hlimit [Hmin Hmax]. unfold SearchRoute.parse, SearchRoute.issues.
  rewrite Hq, Hlimit. cbn [SearchRoute.issueOfQ SearchRoute.issueOfLimit].
  replace (String.length value <? 1) with false
    by (symmetry; apply Nat.ltb_ge; lia).
  replace (500 <? String.length value) with false
    by (symmetry; apply Nat.ltb_ge; lia).
  reflexivity.
Qed.

(** X11. An accepted search sends one request, which asks for five
    results, and a reply with a success status that can be read is passed
    on: the hits in the order of the service, their number as [total], and
    the text searched for. *)
Theorem search_route_answers (w : World) (s : St) (req : SearchRoute.Query)
  (value : string) (r : FetchResponse) (data : Json) (hits : list Hit.t) :
  SearchRoute.q req = Text value -> SearchRoute.limit req = Absent ->
  1 <= String.length value <= 500 ->
  net w (SearchRoute.searchUrl value 5) = Resolves r -> ok r = true ->
  body r = Parses data -> candidatesOf data = Some hits ->
  SearchRoute.handler req w s
  = (Returns (SearchRoute.mkReply 200
                (SearchRoute.mkBody true (Some hits) (Some value)
                                    (Some (List.length hits)) None)),
     mkSt (requests s ++ [SearchRoute.searchUrl value 5]) (draws s) (ticks s)).
Proof.
  intros Hq Hlimit Hlen Hnet Hok Hbody Hcand. unfold SearchRoute.handler.
  rewrite (search_route_parse req value Hq Hlimit Hlen).
  cbv beta iota zeta delta [tryCatch bind throw ret fetch json searchOf fst snd].
  rewrite Hnet. cbv beta iota zeta. rewrite Hbody. cbv beta iota zeta.
  rewrite Hok. cbv beta iota zeta. rewrite Hcand. cbv beta iota zeta.
  now rewrite map_copyHit.
Qed.

(** X12. When the request of an accepted search gets no reply, a reply
    that is not JSON or a failure status, the route answers with status
    400 and the message of the error. *)
Theorem search_route_reports_failure (w : World) (s : St)
  (req : SearchRoute.Query) (value : string) :
  SearchRoute.q req = Text value -> SearchRoute.limit req = Absent ->
  1 <= String.length value <= 500 ->
  forall m,
    (net w (SearchRoute.searchUrl value 5) = Rejects m
     \/ (exists r, net w (SearchRoute.searchUrl value 5) = Resolves r
                   /\ body r = Unparsable m)
     \/ (exists r data,
           net w (SearchRoute.searchUrl value 5) = Resolves r
           /\ body r = Parses data /\ ok r = false
           /\ m = "Wikipedia API error: " +++ JS.showNat (status r))) ->
    fst (SearchRoute.handler req w s)
    = Returns (SearchRoute.mkReply 400
                 (SearchRoute.mkBody false None None None (Some m))).
Proof.
  intros Hq Hlimit Hlen m Hfail. unfold SearchRoute.handler.
  rewrite (search_route_parse req value Hq Hlimit Hlen).
  cbv beta iota zeta delta [tryCatch bind throw ret fetch json searchOf fst snd].
  destruct Hfail as [Hnet|[(r & Hnet & Hbody)|(r & data & Hnet & Hbody & Hok & ->)]];
    rewrite Hnet; cbv beta iota zeta.
  - reflexivity.
  - rewrite Hbody. reflexivity.
  - rewrite Hbody. cbv beta iota zeta. rewrite Hok. reflexivity.
Qed.

Lemma search_route_answers_witness :
  SearchRoute.handler (SearchRoute.mkQuery (Text "moon") Absent) moonSearchWorld start
  = (Returns (SearchRoute.mkReply 200
                (SearchRoute.mkBody true (Some [hit "Moon"; hit "Moon landing"])
                                    (Some "moon") (Some 2) None)),
     mkSt ([] ++ [SearchRoute.searchUrl "moon" 5]) 0 0).
Proof.
  apply (search_route_answers moonSearchWorld start
           (SearchRoute.mkQuery (Text "moon") Absent) "moon"
           (mkResponse 200 (Parses (JSearch (Some [hit "Moon"; hit "Moon landing"]))))
           (JSearch (Some [hit "Moon"; hit "Moon landing"]))
           [hit "Moon"; hit "Moon landing"]);
    try reflexivity.
  cbn. lia.
Defined.

Lemma search_route_reports_failure_witness :
  fst (SearchRoute.handler (SearchRoute.mkQuery (Text "moon") Absent) offline start)
  = Returns (SearchRoute.mkReply 400
               (SearchRoute.mkBody false None None None (Some "fetch failed"))).
Proof.
  apply (search_route_reports_failure offline start
           (SearchRoute.mkQuery (Text "moon") Absent) "moon");
    [reflexivity | reflexivity | cbn; lia | left; reflexivity].
Defined.

(** ** The article route *)

Lemma splitCharFrom_length (d : ascii) (cur s : string) :
  List.length (JS.splitCharFrom d cur s) = 1 + countChar d s.
Proof.
  revert cur. induction s as [|c s IH]; intros cur; [reflexivity|].
  cbn [JS.splitCharFrom countChar]. destruct (Ascii.eqb c d).
  - cbn [List.length]. rewrite IH. lia.
  - rewrite IH. lia.
Qed.

(** X13. The article route answers a title without page, which the
    service files under the key [-1], with status 404 and the error
    [Article not found], after its one request. *)
Theorem article_route_not_found (net : string -> ArticleRoute.Fetched)
  (title : string) (status : nat) (page : ArticleRoute.WikiPage)
  (others : list (string * ArticleRoute.WikiPage)) :
  1 <= String.length title ->
  200 <= status <= 299 ->
  net (ArticleRoute.contentUrl title)
  = ArticleRoute.Resolved status
      (inr (ArticleRoute.DPages (Some (("-1", page) :: others)))) ->
  ArticleRoute.handler net (Text title)
  = (ArticleRoute.mkReply 404
       (ArticleRoute.mkBody false None (Some "Article not found")),
     [ArticleRoute.contentUrl title]).
Proof.
  intros Hlen [Hlo Hhi] Hnet. unfold ArticleRoute.handler, ArticleRoute.parse.
  replace (String.length title <? 1) with false
    by (symmetry; apply Nat.ltb_ge; lia).
  rewrite Hnet.
  replace (200 <=? status) with true by (symmetry; apply Nat.leb_le; lia).
  replace (status <=? 299) with true by (symmetry; apply Nat.leb_le; lia).
  reflexivity.
Qed.

Lemma article_route_not_found_witness :
  ArticleRoute.handler moonArticleNet (Text "Moonn")
  = (ArticleRoute.mkReply 404
       (ArticleRoute.mkBody false None (Some "Article not found")),
     [ArticleRoute.contentUrl "Moonn"]).
Proof.
  apply (article_route_not_found moonArticleNet "Moonn" 200
           (ArticleRoute.mkWikiPage "Moonn" None None None) []);
    [cbn; lia | lia | reflexivity].
Defined.

(** X14. The article of a success carries at most five categories, the
    first ones of the reply in their order, and a word count that is 0
    without extract and otherwise one more than the number of blanks of
    the extract. *)
Theorem article_route_found (net : string -> ArticleRoute.Fetched)
  (title pageId : string) (status : nat) (page : ArticleRoute.WikiPage)
  (others : list (string * ArticleRoute.WikiPage)) :
  1 <= String.length title ->
  200 <= status <= 299 ->
  net (ArticleRoute.contentUrl title)
  = ArticleRoute.Resolved status
      (inr (ArticleRoute.DPages (Some ((pageId, page) :: others)))) ->
  pageId <> "-1" ->
  exists article,
    fst (ArticleRoute.handler net (Text title))
    = ArticleRoute.mkReply 200 (ArticleRoute.mkBody true (Some article) None)
    /\ ArticleRoute.a_title article = ArticleRoute.title page
    /\ ArticleRoute.a_categories article
       = firstn 5 (ArticleRoute.categoriesOf page)
    /\ List.length (ArticleRoute.a_categories article) <= 5
    /\ ArticleRoute.a_wordCount article
       = match ArticleRoute.extract page with
         | Some (String c rest) => 1 + countChar " " (String c rest)
         | _ => 0
         end.
Proof.
  intros Hlen [Hlo Hhi] Hnet Hid. unfold ArticleRoute.handler, ArticleRoute.parse.
  replace (String.length title <? 1) with false
    by (symmetry; apply Nat.ltb_ge; lia).
  rewrite Hnet.
  replace (200 <=? status) with true by (symmetry; apply Nat.leb_le; lia).
  replace (status <=? 299) with true by (symmetry; apply Nat.leb_le; lia).
  cbn [andb ArticleRoute.pagesOf ArticleRoute.answer fst].
  apply String.eqb_neq in Hid. rewrite Hid. unfold ArticleRoute.found.
  eexists. split; [reflexivity|]. cbn [ArticleRoute.a_title
    ArticleRoute.a_categories ArticleRoute.a_wordCount].
  split; [reflexivity|]. split; [reflexivity|]. split.
  - unfold JS.slice. apply firstn_le_length.
  - unfold ArticleRoute.wordCountOf.
    destruct (ArticleRoute.extract page) as [[|c rest]|]; try reflexivity.
    unfold JS.splitChar. apply splitCharFrom_length.
Qed.

Lemma article_route_found_witness :
  exists article,
    fst (ArticleRoute.handler moonArticleNet (Text "Moon"))
    = ArticleRoute.mkReply 200 (ArticleRoute.mkBody true (Some article) None)
    /\ ArticleRoute.a_title article = "Moon"
    /\ ArticleRoute.a_categories article
       = firstn 5 (ArticleRoute.categoriesOf moonWikiPage)
    /\ List.length (ArticleRoute.a_categories article) <= 5
    /\ ArticleRoute.a_wordCount article = 8.
Proof.
  apply (article_route_found moonArticleNet "Moon" "19331" 200 moonWikiPage []);
    [cbn; lia | lia | reflexivity | discriminate].
Defined.

(** X15. The article route turns down a request without one non-empty
    [title] text, with status 400 and without any request; and it answers
    with status 400, not 404, a reply of the service that lists no page at
    all. *)
Theorem article_route_rejects (net : string -> ArticleRoute.Fetched) :
  (forall title,
      (forall value, title = Text value -> value = "") ->
      exists m,
        ArticleRoute.handler net title
        = (ArticleRoute.mkReply 400 (ArticleRoute.mkBody false None (Some m)), []))
  /\ (forall title status,
        1 <= String.length title -> 200 <= status <= 299 ->
        net (ArticleRoute.contentUrl title)
        = ArticleRoute.Resolved status (inr (ArticleRoute.DPages (Some []))) ->
        exists m,
          fst (ArticleRoute.handler net (Text title))
          = ArticleRoute.mkReply 400 (ArticleRoute.mkBody false None (Some m))).
Proof.
  split.
  - intros title Hbad. unfold ArticleRoute.handler, ArticleRoute.parse.
    destruct title as [|value| |]; try (eexists; reflexivity).
    rewrite (Hbad value eq_refl). eexists. reflexivity.
  - intros title status Hlen [Hlo Hhi] Hnet.
    unfold ArticleRoute.handler, ArticleRoute.parse.
    replace (String.length title <? 1) with false
      by (symmetry; apply Nat.ltb_ge; lia).
    rewrite Hnet.
    replace (200 <=? status) with true by (symmetry; apply Nat.leb_le; lia).
    replace (status <=? 299) with true by (symmetry; apply Nat.leb_le; lia).
    eexists. reflexivity.
Qed.

(** ** The client library *)

(** X16. Through the client library a failure of the handler reaches the
    caller as [HTTP error! status: 500]: the message of the handler is
    dropped, that of the validation included. A success is handed over
    unchanged. *)
Theorem client_drops_server_message (w : World) (question : string) :
  exists reply,
    replyOf w question = Some reply
    /\ (success (payload reply) = true ->
        Client.processQuestion (Client.served w) question = payload reply)
    /\ (success (payload reply) = false ->
        Client.processQuestion (Client.served w) question
        = Client.failed "HTTP error! status: 500").
Proof.
  destruct (run_trace w question) as (reply & st & Hrun & _ & Hshape & _).
  assert (Hreply : replyOf w question = Some reply)
    by (unfold replyOf; now rewrite Hrun).
  exists reply. split; [exact Hreply|].
  unfold Client.processQuestion, Client.served. rewrite Hreply.
  destruct Hshape as [(Hst & Hsucc & _)|(Hst & Hsucc & _)]; rewrite Hst, Hsucc.
  - split; [reflexivity | discriminate].
  - split; [discriminate | reflexivity].
Qed.

(** X17. On a well-formed query and a well-formed title the direct calls
    of the client never throw and send one request each; when it gets no
    reply or a reply that is not JSON, [searchDirect] returns the empty
    list and [getArticleDirect] [null]. *)
Theorem direct_calls_never_throw (w : World) (s : St) (query title : string)
  (limit : nat) :
  wellFormed query -> wellFormed title ->
  (exists hits,
      Client.searchDirect query limit w s
      = (Returns hits,
         mkSt (requests s ++ [Client.directSearchUrl query limit]) (draws s) (ticks s))
      /\ ((forall r, net w (Client.directSearchUrl query limit) = Resolves r ->
             exists m, body r = Unparsable m) ->
          hits = []))
  /\ (exists article,
        Client.getArticleDirect title w s
        = (Returns article,
           mkSt (requests s ++ [Client.directContentUrl title]) (draws s) (ticks s))
        /\ ((forall r, net w (Client.directContentUrl title) = Resolves r ->
               exists m, body r = Unparsable m) ->
            article = None)).
Proof.
  intros _ _. split.
  - unfold Client.searchDirect.
    cbv beta iota zeta delta [tryCatch bind throw ret fetch json searchOf].
    destruct (net w (Client.directSearchUrl query limit)) as [m|r] eqn:Hnet.
    + eexists. split; [reflexivity | reflexivity].
    + destruct (body r) as [m|data] eqn:Hbody.
      * eexists. split; [reflexivity | reflexivity].
      * destruct (candidatesOf data) as [hits|]; cbv beta iota zeta;
          (eexists; split; [reflexivity|]);
          intros H; destruct (H r eq_refl) as (m & Hm); congruence.
  - unfold Client.getArticleDirect.
    cbv beta iota zeta delta [tryCatch bind throw ret fetch json pagesOf].
    destruct (net w (Client.directContentUrl title)) as [m|r] eqn:Hnet.
    + eexists. split; [reflexivity | reflexivity].
    + destruct (body r) as [m|data] eqn:Hbody.
      * eexists. split; [reflexivity | reflexivity].
      * destruct (pageEntriesOf data) as [[|[pageId page] pages]|];
          cbv beta iota zeta;
          try destruct (String.eqb pageId "-1");
          (eexists; split; [reflexivity|]);
          intros H; destruct (H r eq_refl) as (m & Hm); congruence.
Qed.

Lemma direct_calls_never_throw_witness :
  wellFormed "moon" /\ wellFormed "Moon landing"
  /\ (exists hits,
        Client.searchDirect "moon" 5 directWorld start
        = (Returns hits,
           mkSt (requests start ++ [Client.directSearchUrl "moon" 5])
                (draws start) (ticks start))
        /\ ((forall r, net directWorld (Client.directSearchUrl "moon" 5) = Resolves r ->
               exists m, body r = Unparsable m) ->
            hits = []))
  /\ (exists article,
        Client.getArticleDirect "Moon landing" directWorld start
        = (Returns article,
           mkSt (requests start ++ [Client.directContentUrl "Moon landing"])
                (draws start) (ticks start))
        /\ ((forall r, net directWorld (Client.directContentUrl "Moon landing") = Resolves r ->
               exists m, body r = Unparsable m) ->
            article = None)).
Proof.
  assert (Hq : wellFormed "moon") by reflexivity.
  assert (Ht : wellFormed "Moon landing") by reflexivity.
  split; [exact Hq|]. split; [exact Ht|].
  exact (direct_calls_never_throw directWorld start "moon" "Moon landing" 5 Hq Ht).
Defined.

(** X18. [getArticleDirect] reads any reply that is JSON, whatever its
    status: the entry filed under [-1] gives [null], another first entry
    gives the article with the title of the page and, when the service
    names no address, the address built from the title asked for. *)
Theorem direct_article_of_reply (w : World) (s : St) (title pageId : string)
  (r : FetchResponse) (data : Json) (page : Page.t)
  (others : list (string * Page.t)) :
  net w (Client.directContentUrl title) = Resolves r ->
  body r = Parses data ->
  pageEntriesOf data = Some ((pageId, page) :: others) ->
  fst (Client.getArticleDirect title w s)
  = Returns
      (if String.eqb pageId "-1" then None
       else Some (Client.mkArticle (Page.title page) (Page.extract page)
                    (Client.urlOf page title)
                    (ArticleRoute.wordCountOf (Page.extract page))))
  /\ (Page.fullurl page = None ->
      Client.urlOf page title
      = "https://en.wikipedia.org/wiki/"
        +++ JS.encodeURIComponent (JS.replaceChar " " "_" title)).
Proof.
  intros Hnet Hbody Hpages. split.
  - unfold Client.getArticleDirect.
    cbv beta iota zeta delta [tryCatch bind throw ret fetch json pagesOf].
    rewrite Hnet. cbv beta iota zeta. rewrite Hbody. cbv beta iota zeta.
    rewrite Hpages. cbv beta iota zeta.
    now destruct (String.eqb pageId "-1").
  - intros Hurl. unfold Client.urlOf. now rewrite Hurl.
Qed.

Lemma direct_article_of_reply_witness :
  fst (Client.getArticleDirect "Moon landing" directWorld start)
  = Returns
      (Some (Client.mkArticle "Moon landing"
               (Some "A Moon landing is the arrival of a spacecraft on the Moon.")
               "https://en.wikipedia.org/wiki/Moon_landing" 12)).
Proof.
  exact (proj1 (direct_article_of_reply directWorld start "Moon landing" "673"
                  _ _ _ [] eq_refl eq_refl eq_refl)).
Defined.

(** ** The fallback answer of the chat hook *)

(** X19. The two copies of [detectQuestionType] agree, except that the
    copy of the hook files under [general] what the server files under
    [compare]. *)
Theorem chat_type_is_server_type (question : string) :
  Chat.detectQuestionType question
  = match detectQuestionType question with
    | Compare => General
    | questionType => questionType
    end.
Proof.
  unfold Chat.detectQuestionType, detectQuestionType. cbv zeta.
  repeat match goal with
         | |- context [if ?b then _ else _] => destruct b; try reflexivity
         end.
Qed.

(** X20. The fallback answer for an article with an extract contains the
    header of the sources section and the bullet that links the title to
    the address of the article; for an article without extract the
    function throws. *)
Theorem fallback_answer_cites_its_source (w : World) (s : St) (question : string)
  (article : Client.WikipediaArticle) (hits : list Hit.t) :
  (forall extract,
      Client.extract article = Some extract ->
      exists text s',
        Chat.generateFallbackResponse question article hits w s = (Returns text, s')
        /\ JS.includes text sourcesHeader = true
        /\ JS.includes text
             (bulletMark +++ " [" +++ Client.title article +++ " on Wikipedia]("
              +++ Client.url article +++ ")" +++ nl) = true)
  /\ (Client.extract article = None ->
      exists e, Chat.generateFallbackResponse question article hits w s = (Throws e, s)).
Proof.
  unfold Chat.generateFallbackResponse. split.
  - intros extract ->.
    assert (Hq : quiet (Chat.makeContentConversational
                          (String.substring 0 600
                             (JS.join blankLine (JS.slice 0 2 (paragraphsOf extract)))))).
    { unfold Chat.makeContentConversational.
      apply quiet_bind; [apply quiet_mapM, quiet_rephrase | auto with quiet]. }
    destruct (quiet_pick conversationalIntros w s) as (intro & s1 & E1 & _).
    destruct (Hq w s1) as (processed & s2 & E2 & _).
    destruct (quiet_pick Chat.conclusions w s2) as (conclusion & s3 & E3 & _).
    unfold bind at 1. rewrite E1. unfold bind at 1. rewrite E2.
    unfold bind at 1. rewrite E3. unfold ret.
    eexists _, _. split; [reflexivity|]. unfold Chat.sourcesSection. split.
    + do 5 apply includes_append_r.
      apply includes_of_startsWith, startsWith_append.
    + do 7 apply includes_append_r.
      apply includes_of_startsWith, startsWith_append.
  - intros ->. eexists. reflexivity.
Qed.

(** X21. On a content with at most three sentences longer than ten
    characters the two copies of [makeContentConversational] give the same
    text from the same random numbers. *)
Theorem copies_agree_on_short_content (content : string)
  (questionType : QuestionType) (w : World) (s : St) :
  List.length (filter (fun piece => 10 <? String.length (JS.trim piece))
                      (JS.splitRuns isSentenceEnd content)) <= 3 ->
  Chat.makeContentConversational content w s
  = makeContentConversational content questionType w s.
Proof.
  intros Hlen. unfold Chat.makeContentConversational, makeContentConversational,
    JS.slice.
  cbn [skipn Nat.sub]. rewrite !firstn_all2 by lia. reflexivity.
Qed.

Lemma copies_agree_on_short_content_witness :
  Chat.makeContentConversational "The Moon orbits the Earth. It has no air." (moonWorld 0) start
  = makeContentConversational "The Moon orbits the Earth. It has no air." What
      (moonWorld 0) start.
Proof.
  apply copies_agree_on_short_content. vm_compute. lia.
Defined.

(** ** The storage of the chat *)

(** X22. The title made from a first message has at most 50 characters: a
    message of at most 50 characters is the title, a longer one gives its
    first 47 characters followed by three dots. A session that already has
    two messages keeps its title. *)
Theorem session_title_is_short (session : Storage.LocalChatSession)
  (firstMessage : string) :
  (List.length (Storage.messages session) <= 1 ->
   String.length (Storage.updateSessionTitle session firstMessage) <= 50
   /\ (String.length firstMessage <= 50 ->
       Storage.updateSessionTitle session firstMessage = firstMessage)
   /\ (50 < String.length firstMessage ->
       Storage.updateSessionTitle session firstMessage
       = String.substring 0 47 firstMessage +++ "..."
       /\ String.length (Storage.updateSessionTitle session firstMessage) = 50))
  /\ (1 < List.length (Storage.messages session) ->
      Storage.updateSessionTitle session firstMessage = Storage.title session).
Proof.
  assert (Hsub : forall n s, n <= String.length s ->
                             String.length (String.substring 0 n s) = n).
  { induction n as [|n IH]; intros t H; [now destruct t|].
    destruct t as [|c t]; cbn in H; [lia|]. cbn. rewrite IH; [reflexivity | lia]. }
  assert (Happ : forall a b, String.length (a +++ b)
                             = String.length a + String.length b).
  { induction a as [|c a IH]; intros b; cbn; [reflexivity | now rewrite IH]. }
  unfold Storage.updateSessionTitle. split.
  - intros Hfew. replace (List.length (Storage.messages session) <=? 1) with true
      by (symmetry; apply Nat.leb_le; lia).
    destruct (50 <? String.length firstMessage) eqn:Hlong.
    + apply Nat.ltb_lt in Hlong.
      assert (Hlen : String.length (String.substring 0 47 firstMessage +++ "...") = 50)
        by (rewrite Happ, Hsub by lia; reflexivity).
      split; [lia|]. split; [lia | now split].
    + apply Nat.ltb_ge in Hlong. split; [lia|]. split; [reflexivity | lia].
  - intros Hmany. replace (List.length (Storage.messages session) <=? 1) with false
      by (symmetry; apply Nat.leb_gt; lia).
    reflexivity.
Qed.

(** X23. Saving a session id and loading it gives the id back when the
    storage takes it; saving no id, or the empty id, leaves none to load.
    When the storage is full the failure is swallowed and the storage
    stays as it was. No other key is touched. *)
Theorem current_session_round_trip (st : Storage.LocalStorage)
  (sessionId : option string) :
  (Storage.full st = false ->
   Storage.loadCurrentSessionId (Storage.saveCurrentSessionId sessionId st)
   = match sessionId with
     | Some (String c rest) => Some (String c rest)
     | _ => None
     end)
  /\ (Storage.full st = true ->
      forall c rest,
        sessionId = Some (String c rest) ->
        Storage.saveCurrentSessionId sessionId st = st)
  /\ (forall key,
        key <> Storage.CURRENT_SESSION_KEY ->
        Storage.getItem key (Storage.saveCurrentSessionId sessionId st)
        = Storage.getItem key st).
Proof.
  unfold Storage.loadCurrentSessionId, Storage.saveCurrentSessionId,
    Storage.setItem, Storage.removeItem, Storage.getItem.
  split; [|split].
  - intros Hroom. destruct sessionId as [[|c rest]|]; try reflexivity.
    rewrite Hroom. cbn [Storage.items]. now rewrite String.eqb_refl.
  - intros Hfull c rest ->. now rewrite Hfull.
  - intros key Hkey. apply String.eqb_neq in Hkey.
    destruct sessionId as [[|c rest]|]; cbn [Storage.items];
      try (now rewrite Hkey).
    destruct (Storage.full st); cbn [Storage.items]; [reflexivity | now rewrite Hkey].
Qed.

(** X24. Clearing the data removes the sessions and the current session
    id and leaves every other item, the preferences among them, in
    place. *)
Theorem clearing_keeps_preferences (st : Storage.LocalStorage) :
  Storage.getItem Storage.SESSIONS_KEY (Storage.clearAllData st) = None
  /\ Storage.loadCurrentSessionId (Storage.clearAllData st) = None
  /\ Storage.getItem Storage.PREFERENCES_KEY (Storage.clearAllData st)
     = Storage.getItem Storage.PREFERENCES_KEY st
  /\ (forall key,
        key <> Storage.SESSIONS_KEY -> key <> Storage.CURRENT_SESSION_KEY ->
        Storage.getItem key (Storage.clearAllData st) = Storage.getItem key st).
Proof.
  unfold Storage.clearAllData, Storage.loadCurrentSessionId, Storage.removeItem,
    Storage.getItem. cbn [Storage.items].
  split; [reflexivity|]. split; [reflexivity|]. split; [reflexivity|].
  intros key H1 H2. apply String.eqb_neq in H1, H2. now rewrite H1, H2.
Qed.

(** ** Short articles and short words *)

(** X25. Of an article with at most three kept paragraphs, one of which
    contains a word of the question, nothing is left out: every paragraph
    is in the passage, trimmed. *)
Theorem short_article_is_kept_whole (paragraphs : list string) (question : string) :
  List.length paragraphs <= 3 ->
  (exists p, In p paragraphs /\ 0 < scoreOf (queryWordsOf question) p) ->
  forall p, In p paragraphs ->
    JS.includes (extractRelevantContent paragraphs question) (JS.trim p) = true.
Proof.
  intros Hlen (best & Hbest & Hpos) p Hp. unfold extractRelevantContent.
  set (f := fun paragraph => mkScored (JS.trim paragraph)
                               (scoreOf (queryWordsOf question) paragraph)).
  pose proof (sortByScore_perm (map f paragraphs)) as Hperm.
  pose proof (sortByScore_sorted (map f paragraphs)) as Hsorted.
  assert (Hall : JS.slice 0 3 (sortByScore (map f paragraphs))
                 = sortByScore (map f paragraphs)).
  { unfold JS.slice. cbn [skipn]. apply firstn_all2.
    rewrite <- (Permutation_length Hperm), length_map. cbn. lia. }
  rewrite Hall.
  assert (Hin : forall x, In x paragraphs -> In (f x) (sortByScore (map f paragraphs))).
  { intros x Hx. apply (Permutation_in _ Hperm). now apply in_map. }
  destruct (sortByScore (map f paragraphs)) as [|top rest] eqn:Hs;
    [destruct (Hin p Hp)|].
  assert (Htop : 0 < score top).
  { destruct (Hin best Hbest) as [Heq|Hrest]; [rewrite Heq; exact Hpos|].
    inversion Hsorted as [|? ? _ Hle]; subst.
    pose proof (proj1 (Forall_forall _ _) Hle _ Hrest) as H. cbn in H.
    unfold f in H. cbn in H. lia. }
  replace (score top =? 0) with false by (symmetry; apply Nat.eqb_neq; lia).
  apply includes_join. change (JS.trim p) with (paragraph (f p)).
  apply in_map. now apply Hin.
Qed.

Lemma short_article_is_kept_whole_witness :
  JS.includes
    (extractRelevantContent
       [ "The Moon is the only natural satellite of the Earth and orbits it once a month.";
         "  Its surface is covered with craters, dark plains of old lava and bright highlands." ]
       "lunar craters")
    (JS.trim "The Moon is the only natural satellite of the Earth and orbits it once a month.")
  = true.
Proof.
  apply short_article_is_kept_whole.
  - cbn. lia.
  - exists "  Its surface is covered with craters, dark plains of old lava and bright highlands.".
    split; [right; now left | vm_compute; lia].
  - now left.
Defined.

(** X26. A question whose words all have three characters or fewer ranks
    nothing: the passage is made of the first two paragraphs, whatever the
    article says. *)
Theorem short_words_rank_nothing (paragraphs : list string) (question : string) :
  (forall token,
      In token (JS.splitRuns JS.isSpace (JS.toLowerCase question)) ->
      String.length token <= 3) ->
  extractRelevantContent paragraphs question
  = JS.join blankLine (firstn 2 paragraphs).
Proof.
  intros Hshort.
  assert (Hnone : queryWordsOf question = []).
  { unfold queryWordsOf.
    induction (JS.splitRuns JS.isSpace (JS.toLowerCase question)) as [|t ts IH];
      [reflexivity|].
    cbn [filter].
    replace (3 <? String.length t) with false
      by (symmetry; apply Nat.ltb_ge, Hshort; now left).
    apply IH. intros token Hin. apply Hshort. now right. }
  unfold extractRelevantContent. rewrite Hnone.
  set (scored := map _ paragraphs).
  destruct (JS.slice 0 3 (sortByScore scored)) as [|top sel] eqn:Hsel;
    [reflexivity|].
  assert (Htop : In top scored).
  { apply sortByScore_In. unfold JS.slice in Hsel. cbn [skipn] in Hsel.
    destruct (sortByScore scored) as [|z zs]; [discriminate|].
    cbn in Hsel. injection Hsel as -> _. now left. }
  apply in_map_iff in Htop as (p & <- & _). reflexivity.
Qed.

Lemma short_words_rank_nothing_witness :
  extractRelevantContent (paragraphsOf moonExtract) "Who is he on the Sea"
  = JS.join blankLine (firstn 2 (paragraphsOf moonExtract)).
Proof.
  apply short_words_rank_nothing. intros token Hin. vm_compute in Hin.
  repeat (destruct Hin as [<-|Hin]; [cbn; lia|]). contradiction.
Defined.

(** ** The addresses requested *)

Lemma append_cancel_l (a x y : string) : a +++ x = a +++ y -> x = y.
Proof. induction a as [|c a IH]; cbn; [auto|]. intros H. injection H. auto. Qed.

Lemma append_length (a b : string) :
  String.length (a +++ b) = String.length a + String.length b.
Proof. induction a as [|c a IH]; cbn; [reflexivity | now rewrite IH]. Qed.

Lemma append_cancel_r (x y s : string) : x +++ s = y +++ s -> x = y.
Proof.
  intros H.
  assert (Hlen : String.length x = String.length y).
  { apply (f_equal String.length) in H. rewrite !append_length in H. lia. }
  revert y H Hlen. induction x as [|c x IH]; intros [|d y] H Hlen;
    try discriminate; [reflexivity|].
  cbn in H, Hlen. injection H as -> H. f_equal. apply IH; [exact H | lia].
Qed.

Lemma unhex_hexDigit (n : nat) : n < 16 -> unhex (JS.hexDigit n) = n.
Proof.
  intros H. do 16 (destruct n as [|n]; [reflexivity|]). lia.
Qed.

Lemma percent_is_reserved (c : ascii) : JS.isUnreserved c = true -> c <> "%"%char.
Proof. intros H ->. discriminate. Qed.

(** [encodeURIComponent] loses nothing: different texts have different
    codes. *)
Lemma encodeURIComponent_inj (x y : string) :
  JS.encodeURIComponent x = JS.encodeURIComponent y -> x = y.
Proof.
  revert y. induction x as [|a x IH]; intros [|b y]; cbn [JS.encodeURIComponent].
  - reflexivity.
  - destruct (JS.isUnreserved b); discriminate.
  - destruct (JS.isUnreserved a); discriminate.
  - cbv zeta.
    remember (nat_of_ascii a / 16) as ha eqn:Eha.
    remember (nat_of_ascii a mod 16) as la eqn:Ela.
    remember (nat_of_ascii b / 16) as hb eqn:Ehb.
    remember (nat_of_ascii b mod 16) as lb eqn:Elb.
    destruct (JS.isUnreserved a) eqn:Ha, (JS.isUnreserved b) eqn:Hb; intros H.
    + injection H as -> H. f_equal. now apply IH.
    + injection H as -> _. now destruct (percent_is_reserved _ Ha).
    + injection H as <- _. now destruct (percent_is_reserved _ Hb).
    + injection H as Hhi Hlo H. f_equal; [|now apply IH].
      assert (Ba : nat_of_ascii a < 256) by apply nat_ascii_bounded.
      assert (Bb : nat_of_ascii b < 256) by apply nat_ascii_bounded.
      assert (Hha : ha < 16) by (subst ha; apply Nat.Div0.div_lt_upper_bound; lia).
      assert (Hhb : hb < 16) by (subst hb; apply Nat.Div0.div_lt_upper_bound; lia).
      assert (Hla : la < 16) by (subst la; apply Nat.mod_upper_bound; lia).
      assert (Hlb : lb < 16) by (subst lb; apply Nat.mod_upper_bound; lia).
      apply (f_equal unhex) in Hhi, Hlo.
      rewrite !unhex_hexDigit in Hhi by assumption.
      rewrite !unhex_hexDigit in Hlo by assumption.
      rewrite <- (ascii_nat_embedding a), <- (ascii_nat_embedding b).
      f_equal.
      rewrite (Nat.div_mod_eq (nat_of_ascii a) 16),
        (Nat.div_mod_eq (nat_of_ascii b) 16). lia.
Qed.

Lemma searchUrl_inj (x y : string) : searchUrl x = searchUrl y -> x = y.
Proof.
  unfold searchUrl. intros H.
  apply append_cancel_l, append_cancel_r in H. now apply encodeURIComponent_inj.
Qed.

Lemma search_is_not_opensearch (x y : string) : searchUrl x <> opensearchUrl y.
Proof. unfold searchUrl, opensearchUrl. cbn [String.append]. discriminate. Qed.

Lemma search_is_not_content (x y : string) : searchUrl x <> contentUrl y.
Proof. unfold searchUrl, contentUrl. cbn [String.append]. discriminate. Qed.

Lemma opensearch_is_not_content (x y : string) : opensearchUrl x <> contentUrl y.
Proof. unfold opensearchUrl, contentUrl. cbn [String.append]. discriminate. Qed.

(** X27. A run never requests the same address twice. *)
Theorem requests_are_distinct (w : World) (question : string) :
  NoDup (requestsOf w question).
Proof.
  destruct (run_trace w question) as (reply & st & Hrun & Hreq & _).
  unfold requestsOf. rewrite Hrun. cbn [snd]. rewrite Hreq. unfold requestPlan.
  destruct (String.length question <? 1); [constructor|].
  destruct (1000 <? String.length question); [constructor|].
  assert (Hone : forall hits, NoDup (contentRequest hits)).
  { intros [e|[|b rest]]; cbn; repeat constructor. intros []. }
  assert (Hnot : forall u hits, (forall t, u <> contentUrl t) ->
                                ~ In u (contentRequest hits)).
  { intros u [e|[|b rest]] Hu; cbn; try tauto. intros [H|[]]. now apply (Hu (Hit.title b)). }
  destruct (firstSearch w question) as [e|[|bestMatch rest]].
  - repeat constructor. intros [].
  - destruct (String.eqb (suggest w question) question) eqn:Hsame.
    + repeat constructor; cbn; [|tauto].
      intros [H|[]]. now apply (search_is_not_opensearch question question).
    + apply String.eqb_neq in Hsame. constructor; [|constructor; [|constructor]].
      * cbn [In]. intros [H|[H|H]].
        -- now apply (search_is_not_opensearch question question).
        -- apply searchUrl_inj in H. congruence.
        -- revert H. apply Hnot. intros t. apply search_is_not_content.
      * cbn [In]. intros [H|H].
        -- now apply (search_is_not_opensearch (suggest w question) question).
        -- revert H. apply Hnot. intros t. apply opensearch_is_not_content.
      * apply Hnot. intros t. apply search_is_not_content.
      * apply Hone.
  - constructor; [|apply (Hone (inr (bestMatch :: rest)))].
    apply Hnot. intros t. apply search_is_not_content.
Qed.
